(** * WalletWatcher: a shallow embedding of [src/App.tsx]

    The development follows the last complete revision of the component
    (the one with ENS support): the exported [getTokenBalance], the module
    level helper [isENSName], and the closures of [App]: [formatBalance],
    [shortenAddress], [resolveAddressAndENS], [handleAddressChange] and
    [handleSubmit], then the component as a state machine and what its JSX
    shows.  The body of [formatBalance] is [parseFloat] followed by
    [Number.prototype.toLocaleString], built-ins of the host, and is a
    parameter of the view.

    JavaScript strings are sequences of UTF-16 code units; the functions of
    [ethers] and of the JSON-RPC provider are taken as parameters, gathered
    in a record; [async] code is written in a small monad that records the
    calls and state updates it issues and either returns or throws. *)

From Stdlib Require Import List NArith ZArith String Ascii Bool Lia.
Import ListNotations.

Set Implicit Arguments.

(** ** JavaScript strings *)

Module JsString.

(** A string value: its UTF-16 code units, in order. *)
Definition jsstring := list N.

(** A literal of the source; the sources' literals are all ASCII. *)
Definition lit (s : string) : jsstring :=
  map N_of_ascii (list_ascii_of_string s).

Definition eqb (a b : jsstring) : bool :=
  if list_eq_dec N.eq_dec a b then true else false.

(** [!s] for a string [s]: only the empty string is falsy. *)
Definition falsy (s : jsstring) : bool :=
  match s with
  | [] => true
  | _ :: _ => false
  end.

(** White space and line terminators, the code units that
    [String.prototype.trim] strips (ECMA-262, WhiteSpace and
    LineTerminator; all of them are in the basic plane). *)
Definition isWhiteSpace (c : N) : bool :=
  ((9 <=? c) && (c <=? 13) || (c =? 32) || (c =? 160) || (c =? 5760)
   || (8192 <=? c) && (c <=? 8202) || (c =? 8232) || (c =? 8233)
   || (c =? 8239) || (c =? 8287) || (c =? 12288) || (c =? 65279))%N.

Fixpoint trimStart (s : jsstring) : jsstring :=
  match s with
  | [] => []
  | c :: t => if isWhiteSpace c then trimStart t else s
  end.

Definition trimEnd (s : jsstring) : jsstring := rev (trimStart (rev s)).

Definition trim (s : jsstring) : jsstring := trimEnd (trimStart s).

(** [s.startsWith(p)] *)
Fixpoint startsWith (s p : jsstring) {struct p} : bool :=
  match p, s with
  | [], _ => true
  | _ :: _, [] => false
  | a :: p', b :: s' => (a =? b)%N && startsWith s' p'
  end.

(** [s.endsWith(p)] *)
Definition endsWith (s p : jsstring) : bool := startsWith (rev s) (rev p).

(** [s.includes(search)]: [search] occurs at some position of [s]. *)
Fixpoint includes (s search : jsstring) : bool :=
  startsWith s search
  || match s with
     | [] => false
     | _ :: t => includes t search
     end.

(** An index argument of [slice], made relative to the length. *)
Definition relativeIndex (len i : Z) : Z :=
  if (i <? 0)%Z then Z.max (len + i) 0 else Z.min i len.

(** [s.slice(start, end)]; [end] is [None] when the argument is left
    out. *)
Definition slice (s : jsstring) (start : Z) (end_ : option Z) : jsstring :=
  let len := Z.of_nat (List.length s) in
  let from := relativeIndex len start in
  let to := match end_ with
            | None => len
            | Some e => relativeIndex len e
            end in
  firstn (Z.to_nat (Z.max (to - from) 0)) (skipn (Z.to_nat from) s).

End JsString.
Import JsString.

(** ** The pure helpers *)

(** [isENSName], line 295. *)
Definition isENSName (input : jsstring) : bool :=
  includes input (lit ".")
  && (endsWith input (lit ".eth") || includes input (lit ".")).

(** [shortenAddress], line 333: the template literal concatenates the two
    slices around three dots. *)
Definition shortenAddress (address : jsstring) : jsstring :=
  slice address 0 (Some 6%Z) ++ lit "..." ++ slice address (-4) None.

(** The wording of the specification for [shortenAddress]: the first six
    characters, three dots, the last four characters; a string shorter
    than that contributes all of its characters. *)
Definition firstChars (n : nat) (s : jsstring) : jsstring := firstn n s.
Definition lastChars (n : nat) (s : jsstring) : jsstring :=
  skipn (List.length s - n) s.
Definition shortenAddress_spec (address : jsstring) : jsstring :=
  firstChars 6 address ++ lit "..." ++ lastChars 4 address.

(** The code unit of the full stop. *)
Definition dot : N := 46.

(** ** Thrown values and results *)

(** What a [throw] or a rejected promise carries.  The only thing the
    component could read from it is [err.message]; [None] stands for a
    thrown value without one. *)
Record Thrown := { message : option jsstring }.

(** [new Error(msg)] *)
Definition Error (msg : string) : Thrown := {| message := Some (lit msg) |}.

(** The outcome of a call: a value, or a thrown value (for a promise: a
    rejection). *)
Inductive result (A : Type) : Type :=
| Ok (a : A)
| Throw (e : Thrown).
Arguments Ok {A} a.
Arguments Throw {A} e.

(** ** Data model *)

Module TokenBalance.
(** [interface TokenBalance], line 232; an optional field left out is
    [None], and so is a [null] balance. *)
Record t := {
  symbol : option jsstring;
  address : jsstring;
  balance : option jsstring;
  decimals : option Z;
  error : option bool
}.
End TokenBalance.

Module ResolvedIdentity.
(** The object [{ address: resolvedAddress, ensName }] returned by
    [resolveAddressAndENS]. *)
Record t := {
  address : jsstring;
  ensName : option jsstring
}.
End ResolvedIdentity.

Module WalletInfo.
(** [interface WalletInfo], line 240. *)
Record t := {
  address : jsstring;
  ensName : option jsstring;
  balance : jsstring;
  tokenBalances : list TokenBalance.t
}.
End WalletInfo.

(** The four [useState] cells of [App], lines 312 to 315. *)
Record AppState := {
  walletInput : jsstring;
  isLoading : bool;
  error : jsstring;
  walletInfo : option WalletInfo.t
}.

(** An entry of [TOKENS]. *)
Record Token := {
  tokenAddress : jsstring;
  tokenName : jsstring
}.

(** [TOKENS], line 299. *)
Definition TOKENS : list Token :=
  [ {| tokenAddress := lit "0xdAC17F958D2ee523a2206206994597C13D831ec7";
       tokenName := lit "Tether" |};
    {| tokenAddress := lit "0xA0b86991c6218b36c1d19D4a2e9Eb0cE3606eB48";
       tokenName := lit "USD Coin" |} ].

(** ** Effects *)

(** The requests that go to the JSON-RPC endpoint: the provider's methods
    and the three read calls of the ERC-20 contract at [token]. *)
Inductive RpcCall : Type :=
| ResolveName (name : jsstring)
| LookupAddress (address : jsstring)
| GetBalance (address : jsstring)
| BalanceOf (token wallet : jsstring)
| Decimals (token : jsstring)
| Symbol (token : jsstring).

(** Everything a handler does besides computing: requests, console
    output, and the calls of the state setters, in program order. *)
Inductive Event : Type :=
| Rpc (c : RpcCall)
| ConsoleError (label : option jsstring) (err : Thrown)
| NewProvider
| PreventDefault
| SetWalletInput (v : jsstring)
| SetIsLoading (b : bool)
| SetError (msg : jsstring)
| SetWalletInfo (w : option WalletInfo.t).

(** A computation: the events it issued, and how it ended. *)
Definition M (A : Type) : Type := (list Event * result A)%type.

Definition trace {A} (m : M A) : list Event := fst m.
Definition outcome {A} (m : M A) : result A := snd m.

Definition ret {A} (a : A) : M A := ([], Ok a).
Definition throw {A} (e : Thrown) : M A := ([], Throw e).
Definition emit (ev : Event) : M unit := ([ev], Ok tt).

(** A call of the library that touches no network. *)
Definition lift {A} (r : result A) : M A := ([], r).

(** A request: it is recorded, then settles as the endpoint decides. *)
Definition rpc {A} (c : RpcCall) (r : result A) : M A := ([Rpc c], r).

Definition bind {A B} (m : M A) (k : A -> M B) : M B :=
  match m with
  | (t, Ok a) => let (t', r) := k a in (t ++ t', r)
  | (t, Throw e) => (t, Throw e)
  end.

(** [try { m } catch (e) { handler e }] *)
Definition tryCatch {A} (m : M A) (handler : Thrown -> M A) : M A :=
  match m with
  | (t, Ok a) => (t, Ok a)
  | (t, Throw e) => let (t', r) := handler e in (t ++ t', r)
  end.

(** [try { m } finally { fin }]: [fin] always runs; when it throws, its
    exception replaces the outcome of [m]. *)
Definition tryFinally {A} (m : M A) (fin : M unit) : M A :=
  let (t, r) := m in
  let (t', r') := fin in
  (t ++ t', match r' with
            | Ok _ => r
            | Throw e => Throw e
            end).

Declare Scope js_scope.
Delimit Scope js_scope with js.
Notation "x <- c ;; k" := (bind c (fun x => k))
  (at level 100, c at next level, right associativity) : js_scope.
Notation "c ;; k" := (bind c (fun _ => k))
  (at level 100, right associativity) : js_scope.
Open Scope js_scope.

(** [await Promise.all([a, b, c])]: the three calls are all issued, in
    the order of the array; the result rejects as soon as one of them
    does.  Which rejection wins when several reject depends on the
    timing of the endpoint; the model takes the first one in array order,
    and the callers here only log that value. *)
Definition promiseAll3 {A B C} (a : M A) (b : M B) (c : M C) : M (A * B * C) :=
  let (ta, ra) := a in
  let (tb, rb) := b in
  let (tc, rc) := c in
  (ta ++ tb ++ tc,
   match ra, rb, rc with
   | Ok x, Ok y, Ok z => Ok (x, y, z)
   | Throw e, _, _ => Throw e
   | Ok _, Throw e, _ => Throw e
   | Ok _, Ok _, Throw e => Throw e
   end).

(** [await Promise.all(ps)] on an array, with the same convention. *)
Fixpoint promiseAll {A} (ps : list (M A)) : M (list A) :=
  match ps with
  | [] => ret []
  | p :: rest =>
      let (t, r) := p in
      let (t', r') := promiseAll rest in
      (t ++ t', match r, r' with
                | Ok a, Ok l => Ok (a :: l)
                | Throw e, _ => Throw e
                | Ok _, Throw e => Throw e
                end)
  end.

(** ** The collaborators

    The functions imported from [ethers] and the answers of the JSON-RPC
    endpoint behind [provider] and behind the [Contract] at an address.
    They are not code of the component: every property below is proved
    for an arbitrary [Env]. *)
Record Env := {
  isAddress : jsstring -> bool;
  getAddress : jsstring -> result jsstring;
  formatEther : Z -> result jsstring;
  formatUnits : Z -> Z -> result jsstring;
  newContract : jsstring -> result unit;
  resolveName : jsstring -> result (option jsstring);
  lookupAddress : jsstring -> result (option jsstring);
  getBalance : jsstring -> result Z;
  balanceOf : jsstring -> jsstring -> result Z;
  decimals : jsstring -> result Z;
  symbol : jsstring -> result jsstring
}.

(** ** The component *)

(** The object literal of both failure branches of [getTokenBalance]:
    [{ address: tokenAddress, balance: null, error: true }]. *)
Definition tokenFailure (tokenAddress : jsstring) : TokenBalance.t :=
  {| TokenBalance.symbol := None;
     TokenBalance.address := tokenAddress;
     TokenBalance.balance := None;
     TokenBalance.decimals := None;
     TokenBalance.error := Some true |}.

(** [getTokenBalance], line 253.  The inner [try] guards [getAddress]
    alone and returns from its [catch]; the outer one guards the rest. *)
Definition getTokenBalance (env : Env) (walletAddress tokenAddress : jsstring)
  : M TokenBalance.t :=
  tryCatch
    (match getAddress env tokenAddress with
     | Throw checksumError =>
         emit (ConsoleError
                 (Some (lit "Invalid address format for " ++ tokenAddress
                        ++ lit ":"))
                 checksumError) ;;
         ret (tokenFailure tokenAddress)
     | Ok checksummedTokenAddress =>
         _ <- lift (newContract env checksummedTokenAddress) ;;
         reads <- promiseAll3
                    (rpc (BalanceOf checksummedTokenAddress walletAddress)
                         (balanceOf env checksummedTokenAddress walletAddress))
                    (rpc (Decimals checksummedTokenAddress)
                         (decimals env checksummedTokenAddress))
                    (rpc (Symbol checksummedTokenAddress)
                         (symbol env checksummedTokenAddress)) ;;
         let '(rawBalance, decimals_, symbol_) := reads in
         formatted <- lift (formatUnits env rawBalance decimals_) ;;
         ret {| TokenBalance.symbol := Some symbol_;
                TokenBalance.address := checksummedTokenAddress;
                TokenBalance.balance := Some formatted;
                TokenBalance.decimals := Some decimals_;
                TokenBalance.error := None |}
     end)
    (fun err =>
       emit (ConsoleError
               (Some (lit "Error fetching token " ++ tokenAddress ++ lit ":"))
               err) ;;
       ret (tokenFailure tokenAddress)).

(** [resolveAddressAndENS], line 338.  [!resolvedAddress] holds for
    [null] and for the empty string.  The outer [catch] rethrows. *)
Definition resolveAddressAndENS (env : Env) (input : jsstring)
  : M ResolvedIdentity.t :=
  tryCatch
    (if isENSName input then
       resolvedAddress <- rpc (ResolveName input) (resolveName env input) ;;
       match resolvedAddress with
       | None => throw (Error "ENS name could not be resolved")
       | Some a =>
           if falsy a then throw (Error "ENS name could not be resolved")
           else ret {| ResolvedIdentity.address := a;
                       ResolvedIdentity.ensName := Some input |}
       end
     else
       if negb (isAddress env (trim input)) then
         throw (Error "Please enter a valid ETH wallet address or ENS name")
       else
         resolvedAddress <- lift (getAddress env (trim input)) ;;
         ensName <- tryCatch
                      (rpc (LookupAddress resolvedAddress)
                           (lookupAddress env resolvedAddress))
                      (fun _ => ret None) ;;
         ret {| ResolvedIdentity.address := resolvedAddress;
                ResolvedIdentity.ensName := ensName |})
    (fun err => throw err).

(** The two string literals that [handleSubmit] passes to [setError]. *)
Definition emptyInputMessage : jsstring :=
  lit "Please enter a wallet address or ENS Name".
Definition genericFailureMessage : jsstring :=
  lit "Failed to fetch wallet information. Please try again later".

(** [handleAddressChange], line 318. *)
Definition handleAddressChange (st : AppState) (value : jsstring) : M unit :=
  emit (SetWalletInput value) ;;
  (if falsy (error st) then ret tt else emit (SetError [])) ;;
  match walletInfo st with
  | Some _ => emit (SetWalletInfo None)
  | None => ret tt
  end.

(** [handleSubmit], line 372, run in a render whose state is [st]. *)
Definition handleSubmit (env : Env) (st : AppState) : M unit :=
  emit PreventDefault ;;
  if falsy (trim (walletInput st)) then
    emit (SetError emptyInputMessage)
  else
    emit (SetIsLoading true) ;;
    emit (SetError []) ;;
    emit (SetWalletInfo None) ;;
    tryFinally
      (tryCatch
         (emit NewProvider ;;
          identity <- resolveAddressAndENS env (trim (walletInput st)) ;;
          let address := ResolvedIdentity.address identity in
          let ensName := ResolvedIdentity.ensName identity in
          balance <- rpc (GetBalance address) (getBalance env address) ;;
          formattedBalance <- lift (formatEther env balance) ;;
          fetchedTokenBalances <-
            promiseAll
              (map (fun token =>
                      getTokenBalance env address (tokenAddress token))
                   TOKENS) ;;
          emit (SetWalletInfo
                  (Some {| WalletInfo.address := address;
                           WalletInfo.ensName := ensName;
                           WalletInfo.balance := formattedBalance;
                           WalletInfo.tokenBalances := fetchedTokenBalances |})))
         (fun err =>
            emit (ConsoleError None err) ;;
            let errorMessage := genericFailureMessage in
            emit (SetError errorMessage)))
      (emit (SetIsLoading false)).

(** ** Reading a trace *)

(** The effect of one event on the state cells. *)
Definition applyEvent (st : AppState) (ev : Event) : AppState :=
  match ev with
  | SetWalletInput v =>
      {| walletInput := v; isLoading := isLoading st;
         error := error st; walletInfo := walletInfo st |}
  | SetIsLoading b =>
      {| walletInput := walletInput st; isLoading := b;
         error := error st; walletInfo := walletInfo st |}
  | SetError msg =>
      {| walletInput := walletInput st; isLoading := isLoading st;
         error := msg; walletInfo := walletInfo st |}
  | SetWalletInfo w =>
      {| walletInput := walletInput st; isLoading := isLoading st;
         error := error st; walletInfo := w |}
  | Rpc _ | ConsoleError _ _ | NewProvider | PreventDefault => st
  end.

(** The state once every update of the trace has been applied. *)
Definition stateAfter (st : AppState) (t : list Event) : AppState :=
  fold_left applyEvent t st.

(** The requests of a trace. *)
Fixpoint rpcCalls (t : list Event) : list RpcCall :=
  match t with
  | [] => []
  | Rpc c :: rest => c :: rpcCalls rest
  | _ :: rest => rpcCalls rest
  end.

Definition throws {A} (m : M A) : Prop :=
  match outcome m with
  | Throw _ => True
  | Ok _ => False
  end.

Definition rejects {A} (r : result A) : Prop :=
  match r with
  | Throw _ => True
  | Ok _ => False
  end.

(** A forward resolution that settles without an address: [null], or the
    empty string, the two values that [!resolvedAddress] accepts. *)
Definition returnsNoAddress (r : result (option jsstring)) : Prop :=
  r = Ok None \/ r = Ok (Some []).

(** The calls of the state setters. *)
Definition isStateUpdate (ev : Event) : bool :=
  match ev with
  | SetWalletInput _ | SetIsLoading _ | SetError _ | SetWalletInfo _ => true
  | Rpc _ | ConsoleError _ _ | NewProvider | PreventDefault => false
  end.

Definition stateUpdates (t : list Event) : list Event :=
  filter isStateUpdate t.

(** The message that the specification and the test suite expect after a
    failed submission: the message of the thrown error followed by the
    retry hint when the error has one, a generic fallback otherwise. *)
Definition messageDerivedFrom (err : Thrown) : jsstring :=
  match message err with
  | Some m => m ++ lit ". Please try again later"
  | None => genericFailureMessage
  end.

(** The claim of the specification on when [resolveAddressAndENS] fails,
    as it is worded: exactly when the input is ENS-style and the forward
    resolution returns no address, or the input is an address candidate
    that fails the format validation. *)
Definition throwsAsSpecified (env : Env) (input : jsstring) : Prop :=
  throws (resolveAddressAndENS env input)
  <-> (isENSName input = true /\ returnsNoAddress (resolveName env input))
      \/ (isENSName input = false /\ isAddress env (trim input) = false).

(** ** Sample environments

    Concrete collaborators, in the manner of the mocks of the test suite,
    on which the statements below are exercised. *)

Definition sampleWallet : jsstring :=
  lit "0x1234567890123456789012345678901234567890".

Definition usdt : jsstring :=
  lit "0xdAC17F958D2ee523a2206206994597C13D831ec7".

(** A crude format check: [0x] and forty more characters. *)
Definition looksLikeAddress (s : jsstring) : bool :=
  startsWith s (lit "0x") && (List.length s =? 42)%nat.

Definition checksumOrThrow (s : jsstring) : result jsstring :=
  if looksLikeAddress s then Ok s else Throw (Error "Invalid address").

(** An endpoint that answers every request. *)
Definition healthyEnv : Env :=
  {| isAddress := looksLikeAddress;
     getAddress := checksumOrThrow;
     formatEther := fun _ => Ok (lit "1.5");
     formatUnits := fun _ _ => Ok (lit "1.000000");
     newContract := fun _ => Ok tt;
     resolveName := fun name =>
       if JsString.eqb name (lit "vitalik.eth") then Ok (Some sampleWallet)
       else Ok None;
     lookupAddress := fun _ => Ok None;
     getBalance := fun _ => Ok 1500000000000000000%Z;
     balanceOf := fun _ _ => Ok 1000000%Z;
     decimals := fun _ => Ok 6%Z;
     symbol := fun _ => Ok (lit "USDT") |}.

(** An endpoint that rejects every request with a network error. *)
Definition offlineEnv : Env :=
  {| isAddress := looksLikeAddress;
     getAddress := checksumOrThrow;
     formatEther := fun _ => Ok (lit "1.5");
     formatUnits := fun _ _ => Ok (lit "1.000000");
     newContract := fun _ => Ok tt;
     resolveName := fun _ => Throw (Error "Network error");
     lookupAddress := fun _ => Throw (Error "Network error");
     getBalance := fun _ => Throw (Error "Network error");
     balanceOf := fun _ _ => Throw (Error "Network error");
     decimals := fun _ => Throw (Error "Network error");
     symbol := fun _ => Throw (Error "Network error") |}.

(** The mocks of the test [handles API errors gracecully] of
    [App.test.tsx]: a valid address, and a [getBalance] that rejects with
    [new Error('Network error')]. *)
Definition balanceDownEnv : Env :=
  {| isAddress := fun _ => true;
     getAddress := fun _ => Ok sampleWallet;
     formatEther := fun _ => Ok (lit "1.5");
     formatUnits := fun _ _ => Ok (lit "1.000000");
     newContract := fun _ => Ok tt;
     resolveName := fun _ => Ok None;
     lookupAddress := fun _ => Ok None;
     getBalance := fun _ => Throw (Error "Network error");
     balanceOf := fun _ _ => Ok 1000000%Z;
     decimals := fun _ => Ok 6%Z;
     symbol := fun _ => Ok (lit "USDT") |}.

(** The state once the user has typed [input] into a fresh component. *)
Definition typed (input : jsstring) : AppState :=
  {| walletInput := input; isLoading := false; error := [];
     walletInfo := None |}.

(** A result on display, with a blank input text next to it. *)
Definition resultShown : AppState :=
  {| walletInput := lit "  ";
     isLoading := false;
     error := [];
     walletInfo :=
       Some {| WalletInfo.address := sampleWallet;
               WalletInfo.ensName := Some (lit "vitalik.eth");
               WalletInfo.balance := lit "1.5";
               WalletInfo.tokenBalances := [] |} |}.

(** ** The component as a state machine *)

(** The initial values of the four [useState] cells, lines 312 to 315. *)
Definition initialState : AppState :=
  {| walletInput := []; isLoading := false; error := []; walletInfo := None |}.

(** The fan-out of [handleSubmit], line 399: one fetch per entry of
    [TOKENS], joined by [Promise.all]. *)
Definition tokenFetches (env : Env) (address : jsstring)
  : M (list TokenBalance.t) :=
  promiseAll
    (map (fun token => getTokenBalance env address (tokenAddress token))
       TOKENS).

(** What the user can do: type into the input, or submit the form.  The
    endpoint may answer differently at every submission, so a submission
    comes with the collaborators it meets. *)
Inductive Action : Type :=
| Edit (value : jsstring)
| Submit (env : Env).

Definition handler (st : AppState) (a : Action) : M unit :=
  match a with
  | Edit value => handleAddressChange st value
  | Submit env => handleSubmit env st
  end.

(** One handler run to its end on the state of the current render.  The
    input and the button are disabled while [isLoading] holds, so no other
    handler starts while a submission is pending. *)
Definition step (st : AppState) (a : Action) : AppState :=
  stateAfter st (trace (handler st a)).

Definition runActions (st : AppState) (actions : list Action) : AppState :=
  fold_left step actions st.

(** ** The view

    The JSX returned by [App], lines 422 to 517, reduced to what it
    shows.  The two number formats are built-ins of the host
    ([parseFloat] then [toLocaleString]) and are taken as parameters. *)
Record Locale := {
  (** [{ minimumFractionDigits: 4, maximumFractionDigits: 4 }] *)
  fixed4 : jsstring -> jsstring;
  (** [{ maximumFractionDigits: 4 }] *)
  upTo4 : jsstring -> jsstring
}.

(** [formatBalance], line 326. *)
Definition formatBalance (loc : Locale) (balance : jsstring) : jsstring :=
  fixed4 loc balance.

(** A row of the token list, lines 500 to 510. *)
Record TokenRow := {
  rowLabel : jsstring;
  rowAmount : jsstring
}.

(** The panel of the success state, lines 465 to 493. *)
Record ResultPanel := {
  shownAddress : jsstring;
  shownEnsName : option jsstring;
  shownBalance : jsstring
}.

Record View := {
  inputValue : jsstring;
  inputDisabled : bool;
  buttonDisabled : bool;
  buttonLabel : jsstring;
  errorPanel : option jsstring;
  resultPanel : option ResultPanel;
  tokenPanel : option (list TokenRow)
}.

(** An optional string used as a condition: [null], [undefined] and the
    empty string are falsy. *)
Definition truthy (s : option jsstring) : option jsstring :=
  match s with
  | Some (c :: t) => Some (c :: t)
  | Some [] | None => None
  end.

(** [token.symbol || 'Unknown Token'] and
    [token.balance && !token.error ? ... : 'Error']. *)
Definition tokenRow (loc : Locale) (token : TokenBalance.t) : TokenRow :=
  {| rowLabel := match truthy (TokenBalance.symbol token) with
                 | Some s => s
                 | None => lit "Unknown Token"
                 end;
     rowAmount := match truthy (TokenBalance.balance token),
                        TokenBalance.error token with
                  | Some b, (None | Some false) => upTo4 loc b
                  | _, _ => lit "Error"
                  end |}.

Definition render (loc : Locale) (st : AppState) : View :=
  {| inputValue := walletInput st;
     inputDisabled := isLoading st;
     buttonDisabled := isLoading st;
     buttonLabel := if isLoading st then lit "Checking..."
                    else lit "Check Wallet";
     errorPanel := if falsy (error st) then None else Some (error st);
     resultPanel :=
       match walletInfo st with
       | Some w =>
           if falsy (error st) then
             Some {| shownAddress := shortenAddress (WalletInfo.address w);
                     shownEnsName := truthy (WalletInfo.ensName w);
                     shownBalance :=
                       formatBalance loc (WalletInfo.balance w)
                       ++ lit " ETH" |}
           else None
       | None => None
       end;
     tokenPanel :=
       match walletInfo st with
       | Some w =>
           match WalletInfo.tokenBalances w with
           | [] => None
           | _ :: _ => Some (map (tokenRow loc) (WalletInfo.tokenBalances w))
           end
       | None => None
       end |}.

(** A locale for the examples: both formats leave the text as it is. *)
Definition plainLocale : Locale :=
  {| fixed4 := fun s => s; upTo4 := fun s => s |}.

(** The healthy endpoint, with a reverse record for every address. *)
Definition namedEnv : Env :=
  {| isAddress := looksLikeAddress;
     getAddress := checksumOrThrow;
     formatEther := fun _ => Ok (lit "1.5");
     formatUnits := fun _ _ => Ok (lit "1.000000");
     newContract := fun _ => Ok tt;
     resolveName := fun _ => Ok (Some sampleWallet);
     lookupAddress := fun _ => Ok (Some (lit "vitalik.eth"));
     getBalance := fun _ => Ok 1500000000000000000%Z;
     balanceOf := fun _ _ => Ok 1000000%Z;
     decimals := fun _ => Ok 6%Z;
     symbol := fun _ => Ok (lit "USDT") |}.

(** An endpoint that resolves names and balances but rejects every read
    of a token contract. *)
Definition offlineTokensEnv : Env :=
  {| isAddress := looksLikeAddress;
     getAddress := checksumOrThrow;
     formatEther := fun _ => Ok (lit "1.5");
     formatUnits := fun _ _ => Ok (lit "1.000000");
     newContract := fun _ => Ok tt;
     resolveName := fun _ => Ok (Some sampleWallet);
     lookupAddress := fun _ => Ok None;
     getBalance := fun _ => Ok 1500000000000000000%Z;
     balanceOf := fun _ _ => Throw (Error "Contract error");
     decimals := fun _ => Throw (Error "Contract error");
     symbol := fun _ => Throw (Error "Contract error") |}.

(** What [handleSubmit] does first on an input that is not blank, and the
    tail of a submission that went to the [catch] block. *)
Definition submitPrologue : list Event :=
  [PreventDefault; SetIsLoading true; SetError []; SetWalletInfo None;
   NewProvider].
Definition submitFailure (err : Thrown) : list Event :=
  [ConsoleError None err; SetError genericFailureMessage; SetIsLoading false].

(** A stored result fits the text of the input: the text is not blank,
    and when it is ENS-style the result is named after the trimmed text
    and has an address. *)
Definition resultFitsInput (st : AppState) (w : WalletInfo.t) : Prop :=
  forallb isWhiteSpace (walletInput st) = false
  /\ (isENSName (trim (walletInput st)) = true ->
      WalletInfo.ensName w = Some (trim (walletInput st))
      /\ WalletInfo.address w <> []).

(** What holds of the state between two handler runs. *)
Definition idleInvariant (st : AppState) : Prop :=
  isLoading st = false
  /\ (error st = [] \/ error st = emptyInputMessage
      \/ error st = genericFailureMessage)
  /\ (forall w,
         walletInfo st = Some w ->
         error st = [] /\ resultFitsInput st w).

(** ** The earlier revisions of the component

    [App.tsx] also holds two earlier revisions of [App]: the first one
    with a submit handler (line 523), and the one that added the token
    balances (line 87).  They keep the balance and the token list in
    state cells of their own, so their setters are new; the requests and
    the console output are the events of above. *)

Module Earlier.

(** The calls of the state setters of the earlier revisions. *)
Inductive Update : Type :=
| SetWalletAddress (v : jsstring)
| SetIsLoading (b : bool)
| SetError (msg : jsstring)
| SetBalance (b : jsstring)
| SetTokenBalances (l : list TokenBalance.t).

(** One step of a handler: an event of the component, or a setter call. *)
Definition Step : Type := (Event + Update)%type.

(** A handler computation: its steps in program order, and its end. *)
Definition H (A : Type) : Type := (list Step * result A)%type.

Definition steps {A} (h : H A) : list Step := fst h.
Definition ending {A} (h : H A) : result A := snd h.

(** A computation of the component, run inside a handler. *)
Definition run {A} (m : M A) : H A := (map inl (trace m), outcome m).

Definition update (u : Update) : H unit := ([inr u], Ok tt).

Definition andThen {A B} (h : H A) (k : A -> H B) : H B :=
  match h with
  | (t, Ok a) => let (t', r) := k a in (t ++ t', r)
  | (t, Throw e) => (t, Throw e)
  end.

(** [try { h } catch (e) { handler e }] *)
Definition catching {A} (h : H A) (handler : Thrown -> H A) : H A :=
  match h with
  | (t, Ok a) => (t, Ok a)
  | (t, Throw e) => let (t', r) := handler e in (t ++ t', r)
  end.

(** [try { h } finally { fin }] *)
Definition finallyDo {A} (h : H A) (fin : H unit) : H A :=
  let (t, r) := h in
  let (t', r') := fin in
  (t ++ t', match r' with
            | Ok _ => r
            | Throw e => Throw e
            end).

Declare Scope handler_scope.
Delimit Scope handler_scope with handler.
Notation "x <- c ;; k" := (andThen c (fun x => k))
  (at level 100, c at next level, right associativity) : handler_scope.
Notation "c ;; k" := (andThen c (fun _ => k))
  (at level 100, right associativity) : handler_scope.

(** The requests among the steps. *)
Fixpoint requests (t : list Step) : list RpcCall :=
  match t with
  | [] => []
  | inl (Rpc c) :: rest => c :: requests rest
  | _ :: rest => requests rest
  end.

(** The setter calls among the steps. *)
Fixpoint updates (t : list Step) : list Update :=
  match t with
  | [] => []
  | inr u :: rest => u :: updates rest
  | inl _ :: rest => updates rest
  end.

(** *** The revision with token balances, lines 87 to 155 *)

Module WithTokens.

(** The five [useState] cells, lines 89 to 93. *)
Record State := {
  walletAddress : jsstring;
  isLoading : bool;
  error : jsstring;
  balance : option jsstring;
  tokenBalances : list TokenBalance.t
}.

Definition validationMessage : jsstring :=
  lit "Please enter a valid ETH wallet address".
Definition failureMessage : jsstring :=
  lit "Failed to fetch balance. Please try again later".

(** [handleSubmit], line 115.  The two checks look at the trimmed text;
    the requests are made with [walletAddress] as it is. *)
Definition handleSubmit (env : Env) (st : State) : H unit :=
  (run (emit PreventDefault) ;;
   if falsy (trim (walletAddress st)) then
     update (SetError (lit "Please enter a wallet address"))
   else if negb (isAddress env (trim (walletAddress st))) then
     update (SetError validationMessage)
   else
     update (SetIsLoading true) ;;
     update (SetError []) ;;
     finallyDo
       (catching
          (run (emit NewProvider) ;;
           balance <- run (rpc (GetBalance (walletAddress st))
                             (getBalance env (walletAddress st))) ;;
           formatted <- run (lift (formatEther env balance)) ;;
           update (SetBalance formatted) ;;
           fetchedTokenBalances <-
             run (promiseAll
                    (map (fun token =>
                            getTokenBalance env (walletAddress st)
                              (tokenAddress token))
                       TOKENS)) ;;
           update (SetTokenBalances fetchedTokenBalances))
          (fun err =>
             run (emit (ConsoleError None err)) ;;
             update (SetError failureMessage)))
       (update (SetIsLoading false)))%handler.

Definition applyUpdate (st : State) (u : Update) : State :=
  match u with
  | SetWalletAddress v =>
      {| walletAddress := v; isLoading := isLoading st; error := error st;
         balance := balance st; tokenBalances := tokenBalances st |}
  | SetIsLoading b =>
      {| walletAddress := walletAddress st; isLoading := b; error := error st;
         balance := balance st; tokenBalances := tokenBalances st |}
  | SetError msg =>
      {| walletAddress := walletAddress st; isLoading := isLoading st;
         error := msg;
         balance := balance st; tokenBalances := tokenBalances st |}
  | SetBalance b =>
      {| walletAddress := walletAddress st; isLoading := isLoading st;
         error := error st;
         balance := Some b; tokenBalances := tokenBalances st |}
  | SetTokenBalances l =>
      {| walletAddress := walletAddress st; isLoading := isLoading st;
         error := error st;
         balance := balance st; tokenBalances := l |}
  end.

Definition stateAfter (st : State) (t : list Step) : State :=
  fold_left applyUpdate (updates t) st.

(** A state with a balance and a token list on display, and an address
    typed with a space before it. *)
Definition shown : State :=
  {| walletAddress := lit " " ++ sampleWallet;
     isLoading := false;
     error := [];
     balance := Some (lit "1.5");
     tokenBalances := [tokenFailure usdt] |}.

End WithTokens.

(** *** The first revision with a handler, lines 523 to 570 *)

Module Basic.

(** The four [useState] cells, lines 525 to 528. *)
Record State := {
  walletAddress : jsstring;
  isLoading : bool;
  error : jsstring;
  balance : option jsstring
}.

(** The format check of line 548, on the text as it is:
    [walletAddress.startsWith('0x')] and [walletAddress.length === 42]. *)
Definition wellFormed (walletAddress : jsstring) : bool :=
  startsWith walletAddress (lit "0x")
  && (List.length walletAddress =? 42)%nat.

(** [handleSubmit], line 538; its [catch] does not log. *)
Definition handleSubmit (env : Env) (st : State) : H unit :=
  (run (emit PreventDefault) ;;
   if falsy (trim (walletAddress st)) then
     update (SetError (lit "Please enter a wallet address"))
   else if negb (startsWith (walletAddress st) (lit "0x"))
           || negb (List.length (walletAddress st) =? 42)%nat then
     update (SetError (lit "Please enter a valid ETH wallet address"))
   else
     update (SetIsLoading true) ;;
     update (SetError []) ;;
     finallyDo
       (catching
          (run (emit NewProvider) ;;
           balance <- run (rpc (GetBalance (walletAddress st))
                             (getBalance env (walletAddress st))) ;;
           formatted <- run (lift (formatEther env balance)) ;;
           update (SetBalance formatted))
          (fun err => update (SetError (lit "Failed to fetch balance"))))
       (update (SetIsLoading false)))%handler.

End Basic.

End Earlier.

(** The head of a string is not white space (or the string is empty). *)
Definition noLeadingSpace (s : jsstring) : Prop :=
  match s with
  | [] => True
  | c :: _ => isWhiteSpace c = false
  end.

(** The console output of a trace. *)
Fixpoint consoleErrors (t : list Event) : list Thrown :=
  match t with
  | [] => []
  | ConsoleError _ err :: rest => err :: consoleErrors rest
  | _ :: rest => consoleErrors rest
  end.

(** ** Facts about strings *)

Section StringFacts.

Lemma startsWith_single (c : N) (s : jsstring) :
  startsWith s [c] = match s with
                     | [] => false
                     | b :: _ => (c =? b)%N
                     end.
Proof.
  destruct s as [|b t]; simpl; [reflexivity|].
  apply andb_true_r.
Qed.

Lemma includes_single (c : N) (s : jsstring) :
  includes s [c] = true <-> In c s.
Proof.
  induction s as [|b t IH].
  - simpl. split; [discriminate | tauto].
  - cbn [includes]. rewrite startsWith_single, orb_true_iff, IH, N.eqb_eq.
    simpl. split; intros [H|H]; auto.
Qed.

Lemma slice_prefix (s : jsstring) (n : nat) :
  slice s 0 (Some (Z.of_nat n)) = firstn n s.
Proof.
  unfold slice, relativeIndex.
  replace (0 <? 0)%Z with false by reflexivity.
  destruct (Z.of_nat n <? 0)%Z eqn:Hn; [apply Z.ltb_lt in Hn; lia|].
  rewrite (Z.min_l 0) by lia. simpl skipn.
  destruct (Nat.le_gt_cases n (List.length s)) as [Hle|Hgt].
  - f_equal. lia.
  - rewrite (firstn_all2 (n:=n)) by lia.
    apply firstn_all2. lia.
Qed.

Lemma slice_suffix (s : jsstring) (n : nat) :
  (0 < n)%nat ->
  slice s (- Z.of_nat n) None = skipn (List.length s - n) s.
Proof.
  intros Hpos. unfold slice, relativeIndex.
  destruct (- Z.of_nat n <? 0)%Z eqn:Hn; [|apply Z.ltb_ge in Hn; lia].
  replace (Z.to_nat (Z.max (Z.of_nat (List.length s) + - Z.of_nat n) 0))
    with (List.length s - n)%nat by lia.
  apply firstn_all2. rewrite length_skipn. lia.
Qed.

Lemma trimStart_nil_iff (s : jsstring) :
  trimStart s = [] <-> forallb isWhiteSpace s = true.
Proof.
  induction s as [|c t IH]; simpl.
  - tauto.
  - destruct (isWhiteSpace c); simpl.
    + exact IH.
    + split; discriminate.
Qed.

Lemma trimStart_blank (s : jsstring) :
  forallb isWhiteSpace s = true -> trimStart s = [].
Proof. apply trimStart_nil_iff. Qed.

Lemma trimStart_suffix (s : jsstring) :
  exists p, s = p ++ trimStart s /\ forallb isWhiteSpace p = true.
Proof.
  induction s as [|c t [p [Hp Hw]]]; simpl.
  - exists []. auto.
  - destruct (isWhiteSpace c) eqn:Hc.
    + exists (c :: p). simpl. rewrite Hc, Hw. split; [congruence | reflexivity].
    + exists []. auto.
Qed.

(** [trim] yields the empty string exactly on the strings made of white
    space only, the empty one included. *)
Lemma trim_nil_iff (s : jsstring) :
  trim s = [] <-> forallb isWhiteSpace s = true.
Proof.
  unfold trim, trimEnd. split.
  - intros H.
    assert (Hr : trimStart (rev (trimStart s)) = []).
    { rewrite <- (rev_involutive (trimStart (rev (trimStart s)))), H.
      reflexivity. }
    apply trimStart_nil_iff in Hr.
    assert (Hs : forallb isWhiteSpace (trimStart s) = true).
    { rewrite forallb_forall in *. intros x Hx. apply Hr.
      now apply in_rev in Hx. }
    destruct (trimStart_suffix s) as [p [Hp Hw]].
    rewrite Hp, forallb_app, Hw, Hs. reflexivity.
  - intros H. rewrite (trimStart_blank s H). reflexivity.
Qed.

End StringFacts.

(** ** The pure helpers, verified *)

(** C4: for every input string, [isENSName] answers [true] if and only if
    the string contains at least one full stop; whatever follows the dot
    does not matter, and a string without a dot is an address candidate. *)
Theorem isENSName_iff_contains_dot (input : jsstring) :
  isENSName input = true <-> In dot input.
Proof.
  unfold isENSName, dot.
  change (lit ".") with [46%N].
  rewrite andb_true_iff, orb_true_iff, includes_single.
  tauto.
Qed.

(** C8: for every address string, [shortenAddress] is its first six
    characters, then three dots, then its last four characters; on the
    forty-two character address of the specification this is
    [0x1234...7890]. *)
Theorem shortenAddress_first6_dots_last4 :
  (forall address : jsstring,
      shortenAddress address = shortenAddress_spec address)
  /\ shortenAddress (lit "0x1234567890123456789012345678901234567890")
     = lit "0x1234...7890".
Proof.
  split.
  - intros address. unfold shortenAddress, shortenAddress_spec.
    unfold firstChars, lastChars.
    change 6%Z with (Z.of_nat 6). rewrite slice_prefix.
    change (-4)%Z with (- Z.of_nat 4)%Z. rewrite slice_suffix by lia.
    reflexivity.
  - reflexivity.
Qed.

(** ** The token balance fetcher *)

(** Whatever the collaborators do, the fetcher ends with a value: both
    [catch] blocks return. *)
Lemma getTokenBalance_returns (env : Env) (walletAddress tokenAddress : jsstring) :
  exists r, outcome (getTokenBalance env walletAddress tokenAddress) = Ok r.
Proof.
  unfold getTokenBalance.
  destruct (getAddress env tokenAddress) as [c|e]; cbn; [|eauto].
  destruct (newContract env c); cbn; [|eauto].
  destruct (balanceOf env c walletAddress), (decimals env c),
    (symbol env c); cbn; eauto.
  destruct (formatUnits env _ _); cbn; eauto.
Qed.

(** C1: for every wallet address and every token address,
    [getTokenBalance] never throws; when the checksum canonicalisation of
    the token address fails, and likewise when any of the three contract
    reads fails, it returns the token address as it was passed in, a
    [null] balance and the error flag. *)
Theorem getTokenBalance_never_throws
    (env : Env) (walletAddress tokenAddress : jsstring) :
  (exists r,
      outcome (getTokenBalance env walletAddress tokenAddress) = Ok r)
  /\ (rejects (getAddress env tokenAddress) ->
      outcome (getTokenBalance env walletAddress tokenAddress)
      = Ok (tokenFailure tokenAddress))
  /\ (forall checksummed,
         getAddress env tokenAddress = Ok checksummed ->
         rejects (balanceOf env checksummed walletAddress)
         \/ rejects (decimals env checksummed)
         \/ rejects (symbol env checksummed) ->
         outcome (getTokenBalance env walletAddress tokenAddress)
         = Ok (tokenFailure tokenAddress)).
Proof.
  split; [apply getTokenBalance_returns|].
  unfold getTokenBalance. split.
  - intros H. destruct (getAddress env tokenAddress); [destruct H|].
    reflexivity.
  - intros c Hc Hreads. rewrite Hc. cbn.
    destruct (newContract env c); cbn; [|reflexivity].
    destruct (balanceOf env c walletAddress), (decimals env c),
      (symbol env c); cbn in *; try reflexivity.
    tauto.
Qed.

Lemma getTokenBalance_never_throws_witness :
  outcome (getTokenBalance offlineEnv sampleWallet (lit "invalid-address"))
  = Ok (tokenFailure (lit "invalid-address"))
  /\ outcome (getTokenBalance offlineEnv sampleWallet usdt)
     = Ok (tokenFailure usdt).
Proof.
  split.
  - apply (proj1 (proj2 (getTokenBalance_never_throws
                           offlineEnv sampleWallet (lit "invalid-address")))).
    vm_compute. exact I.
  - apply (proj2 (proj2 (getTokenBalance_never_throws
                           offlineEnv sampleWallet usdt)) usdt).
    + reflexivity.
    + left. vm_compute. exact I.
Defined.

(** C9: every result that [getTokenBalance] returns has a [null] balance
    if and only if its error flag is set, and a result without the error
    flag carries a balance together with the symbol and the decimals. *)
Theorem getTokenBalance_result_invariant
    (env : Env) (walletAddress tokenAddress : jsstring) (r : TokenBalance.t) :
  outcome (getTokenBalance env walletAddress tokenAddress) = Ok r ->
  (TokenBalance.balance r = None <-> TokenBalance.error r = Some true)
  /\ (TokenBalance.error r <> Some true ->
      exists b s d,
        TokenBalance.balance r = Some b
        /\ TokenBalance.symbol r = Some s
        /\ TokenBalance.decimals r = Some d).
Proof.
  unfold getTokenBalance.
  assert (Hfail : forall t,
             (TokenBalance.balance (tokenFailure t) = None
              <-> TokenBalance.error (tokenFailure t) = Some true)
             /\ (TokenBalance.error (tokenFailure t) <> Some true ->
                 exists b s d,
                   TokenBalance.balance (tokenFailure t) = Some b
                   /\ TokenBalance.symbol (tokenFailure t) = Some s
                   /\ TokenBalance.decimals (tokenFailure t) = Some d)).
  { intros t. cbn. split; [tauto | congruence]. }
  destruct (getAddress env tokenAddress) as [c|e]; cbn.
  - destruct (newContract env c); cbn;
      [|intros H; injection H as <-; apply Hfail].
    destruct (balanceOf env c walletAddress) as [raw|], (decimals env c) as [d|],
      (symbol env c) as [s|]; cbn;
      try (intros H; injection H as <-; apply Hfail).
    destruct (formatUnits env raw d) as [b|]; cbn;
      intros H; injection H as <-; [|apply Hfail].
    cbn. split.
    + split; discriminate.
    + intros _. exists b, s, d. auto.
  - intros H; injection H as <-; apply Hfail.
Qed.

Lemma getTokenBalance_result_invariant_witness :
  (Some (lit "1.000000") = None <-> @None bool = Some true)
  /\ (@None bool <> Some true ->
      exists b s d,
        Some (lit "1.000000") = Some b
        /\ Some (lit "USDT") = Some s
        /\ Some 6%Z = Some d).
Proof.
  exact (getTokenBalance_result_invariant healthyEnv sampleWallet usdt
           (r := {| TokenBalance.symbol := Some (lit "USDT");
                    TokenBalance.address := usdt;
                    TokenBalance.balance := Some (lit "1.000000");
                    TokenBalance.decimals := Some 6%Z;
                    TokenBalance.error := None |})
           eq_refl).
Defined.

(** ** The resolver *)

Section Resolver.

Variable env : Env.
Variable input : jsstring.

(** The ENS branch issues the forward resolution and nothing else. *)
Lemma resolve_ens_trace :
  isENSName input = true ->
  trace (resolveAddressAndENS env input) = [Rpc (ResolveName input)].
Proof.
  intros H. unfold resolveAddressAndENS. rewrite H.
  destruct (resolveName env input) as [[[|c a]|]|e]; reflexivity.
Qed.

Lemma resolve_ens_outcome :
  isENSName input = true ->
  outcome (resolveAddressAndENS env input)
  = match resolveName env input with
    | Ok (Some (c :: a)) =>
        Ok {| ResolvedIdentity.address := c :: a;
              ResolvedIdentity.ensName := Some input |}
    | Ok (Some []) | Ok None =>
        Throw (Error "ENS name could not be resolved")
    | Throw e => Throw e
    end.
Proof.
  intros H. unfold resolveAddressAndENS. rewrite H.
  destruct (resolveName env input) as [[[|c a]|]|e]; reflexivity.
Qed.

Lemma resolve_address_outcome :
  isENSName input = false ->
  outcome (resolveAddressAndENS env input)
  = if isAddress env (trim input) then
      match getAddress env (trim input) with
      | Ok a =>
          Ok {| ResolvedIdentity.address := a;
                ResolvedIdentity.ensName :=
                  match lookupAddress env a with
                  | Ok name => name
                  | Throw _ => None
                  end |}
      | Throw e => Throw e
      end
    else
      Throw (Error "Please enter a valid ETH wallet address or ENS name").
Proof.
  intros H. unfold resolveAddressAndENS. rewrite H.
  destruct (isAddress env (trim input)); [|reflexivity]. cbn.
  destruct (getAddress env (trim input)) as [a|e]; [|reflexivity]. cbn.
  destruct (lookupAddress env a); reflexivity.
Qed.

End Resolver.

(** C2, as amended: [resolveAddressAndENS] throws exactly when the input
    is ENS-style and the forward resolution rejects or returns no address,
    or the input is an address candidate whose trimmed text fails the
    format validation or whose canonicalisation throws; otherwise it
    returns an identity whose address is the forward-resolved address (ENS
    path, with the input as name) or the canonical form of the trimmed
    input (address path). *)
Theorem resolveAddressAndENS_throws_iff (env : Env) (input : jsstring) :
  (throws (resolveAddressAndENS env input)
   <-> (isENSName input = true
        /\ (rejects (resolveName env input)
            \/ returnsNoAddress (resolveName env input)))
       \/ (isENSName input = false
           /\ (isAddress env (trim input) = false
               \/ rejects (getAddress env (trim input)))))
  /\ (~ throws (resolveAddressAndENS env input) ->
      exists r,
        outcome (resolveAddressAndENS env input) = Ok r
        /\ if isENSName input
           then resolveName env input = Ok (Some (ResolvedIdentity.address r))
                /\ ResolvedIdentity.ensName r = Some input
           else getAddress env (trim input)
                = Ok (ResolvedIdentity.address r)).
Proof.
  unfold throws, returnsNoAddress.
  destruct (isENSName input) eqn:Hens.
  - rewrite (resolve_ens_outcome env input Hens).
    destruct (resolveName env input) as [[[|c a]|]|e]; cbn.
    + split; [|intros Hn; now destruct Hn].
      split; [intros _; left; auto | auto].
    + split.
      * split; [intros []|].
        intros [[_ [[]|[H|H]]]|[H _]]; discriminate.
      * intros _. eexists. split; [reflexivity | split; reflexivity].
    + split; [|intros Hn; now destruct Hn].
      split; [intros _; left; auto | auto].
    + split; [|intros Hn; now destruct Hn].
      split; [intros _; left; auto | auto].
  - rewrite (resolve_address_outcome env input Hens).
    destruct (isAddress env (trim input)).
    + destruct (getAddress env (trim input)) as [a|e]; cbn.
      * split.
        -- split; [intros []|].
           intros [[H _]|[_ [H|[]]]]; discriminate.
        -- intros _. eexists. split; reflexivity.
      * split; [|intros Hn; now destruct Hn].
        split; [intros _; right; auto | auto].
    + cbn. split; [|intros Hn; now destruct Hn].
      split; [intros _; right; auto | auto].
Qed.

Lemma resolveAddressAndENS_throws_iff_witness :
  exists r,
    outcome (resolveAddressAndENS healthyEnv (lit "vitalik.eth")) = Ok r
    /\ resolveName healthyEnv (lit "vitalik.eth")
       = Ok (Some (ResolvedIdentity.address r))
    /\ ResolvedIdentity.ensName r = Some (lit "vitalik.eth").
Proof.
  apply (proj2 (resolveAddressAndENS_throws_iff healthyEnv
                  (lit "vitalik.eth"))).
  vm_compute. exact (fun H => H).
Defined.

(** C2, as the specification words it, fails when the endpoint is
    unreachable: the forward resolution of a dotted name rejects, so the
    resolver throws although no answer without an address was returned
    and the input is not an address candidate. *)
Lemma resolveAddressAndENS_throws_as_specified_counterexample :
  ~ throwsAsSpecified offlineEnv (lit "vitalik.eth").
Proof.
  unfold throwsAsSpecified. intros [Hthrows _].
  assert (H : throws (resolveAddressAndENS offlineEnv (lit "vitalik.eth")))
    by (vm_compute; exact I).
  destruct (Hthrows H) as [[_ [Hr|Hr]]|[Hens _]].
  - cbn in Hr. discriminate.
  - cbn in Hr. discriminate.
  - vm_compute in Hens. discriminate.
Qed.

(** C6: on the address path, once the input is validated and
    canonicalised, a reverse lookup that rejects or that finds no name
    leaves the resolution successful with no ENS name; on the ENS path
    the reverse lookup is never requested and the ENS name of the result
    is the input itself. *)
Theorem resolveAddressAndENS_reverse_lookup_best_effort
    (env : Env) (input : jsstring) :
  (forall a,
      isENSName input = false ->
      isAddress env (trim input) = true ->
      getAddress env (trim input) = Ok a ->
      rejects (lookupAddress env a) \/ lookupAddress env a = Ok None ->
      outcome (resolveAddressAndENS env input)
      = Ok {| ResolvedIdentity.address := a;
              ResolvedIdentity.ensName := None |})
  /\ (isENSName input = true ->
      (forall a,
          ~ In (LookupAddress a)
               (rpcCalls (trace (resolveAddressAndENS env input))))
      /\ (forall r,
             outcome (resolveAddressAndENS env input) = Ok r ->
             ResolvedIdentity.ensName r = Some input)).
Proof.
  split.
  - intros a Hens Hvalid Hsum Hlookup.
    rewrite (resolve_address_outcome env input Hens), Hvalid, Hsum.
    destruct Hlookup as [Hrej|Hnone].
    + destruct (lookupAddress env a); [destruct Hrej | reflexivity].
    + rewrite Hnone. reflexivity.
  - intros Hens. split.
    + intros a. rewrite (resolve_ens_trace env input Hens). cbn.
      intros [H|[]]. discriminate.
    + intros r. rewrite (resolve_ens_outcome env input Hens).
      destruct (resolveName env input) as [[[|c s]|]|e]; try discriminate.
      intros H. injection H as <-. reflexivity.
Qed.

Lemma resolveAddressAndENS_reverse_lookup_best_effort_witness :
  outcome (resolveAddressAndENS offlineEnv sampleWallet)
  = Ok {| ResolvedIdentity.address := sampleWallet;
          ResolvedIdentity.ensName := None |}
  /\ (forall a,
         ~ In (LookupAddress a)
              (rpcCalls (trace (resolveAddressAndENS healthyEnv
                                  (lit "vitalik.eth")))))
  /\ (forall r,
         outcome (resolveAddressAndENS healthyEnv (lit "vitalik.eth")) = Ok r ->
         ResolvedIdentity.ensName r = Some (lit "vitalik.eth")).
Proof.
  split.
  - apply (proj1 (resolveAddressAndENS_reverse_lookup_best_effort
                    offlineEnv sampleWallet) sampleWallet).
    + reflexivity.
    + reflexivity.
    + reflexivity.
    + left. vm_compute. exact I.
  - apply (proj2 (resolveAddressAndENS_reverse_lookup_best_effort
                    healthyEnv (lit "vitalik.eth"))).
    reflexivity.
Defined.

(** ** The submit handler *)

Section Traces.

Lemma stateUpdates_app (t t' : list Event) :
  stateUpdates (t ++ t') = stateUpdates t ++ stateUpdates t'.
Proof. apply filter_app. Qed.

(** Only the setter calls of a trace matter for the state. *)
Lemma stateAfter_stateUpdates (t : list Event) (st : AppState) :
  stateAfter st t = stateAfter st (stateUpdates t).
Proof.
  revert st. induction t as [|ev t IH]; intros st; [reflexivity|].
  destruct ev; cbn; try apply IH.
  all: destruct st; apply IH.
Qed.

Lemma resolve_no_updates (env : Env) (input : jsstring) :
  stateUpdates (trace (resolveAddressAndENS env input)) = [].
Proof.
  unfold resolveAddressAndENS.
  destruct (isENSName input).
  - destruct (resolveName env input) as [[[|c a]|]|e]; reflexivity.
  - destruct (isAddress env (trim input)); [|reflexivity]. cbn.
    destruct (getAddress env (trim input)) as [a|e]; [|reflexivity]. cbn.
    destruct (lookupAddress env a); reflexivity.
Qed.

Lemma getTokenBalance_no_updates (env : Env) (wallet token : jsstring) :
  stateUpdates (trace (getTokenBalance env wallet token)) = [].
Proof.
  unfold getTokenBalance.
  destruct (getAddress env token) as [c|e]; [|reflexivity]. cbn.
  destruct (newContract env c); [|reflexivity]. cbn.
  destruct (balanceOf env c wallet) as [raw|], (decimals env c) as [d|],
    (symbol env c); try reflexivity.
  cbn. destruct (formatUnits env raw d); reflexivity.
Qed.

Lemma promiseAll_no_updates {A} (ps : list (M A)) :
  Forall (fun p => stateUpdates (trace p) = []) ps ->
  stateUpdates (trace (promiseAll ps)) = [].
Proof.
  induction 1 as [|[t r] ps Hp _ IH]; [reflexivity|].
  cbn [promiseAll]. destruct (promiseAll ps) as [t' r'].
  unfold trace in *. cbn [fst] in *.
  rewrite stateUpdates_app, Hp, IH. reflexivity.
Qed.

(** A promise array whose members never reject does not reject. *)
Lemma promiseAll_never_rejects {A} (ps : list (M A)) :
  Forall (fun p => exists a, outcome p = Ok a) ps ->
  exists l, outcome (promiseAll ps) = Ok l.
Proof.
  induction 1 as [|[t r] ps [a Ha] _ [l IH]]; [exists []; reflexivity|].
  cbn [promiseAll]. destruct (promiseAll ps) as [t' r'].
  unfold outcome in *. cbn [snd] in *. subst. eauto.
Qed.

(** The fan-out over [TOKENS] cannot reject: it never sends the handler
    to its [catch]. *)
Lemma tokenFetches_never_reject (env : Env) (address : jsstring) :
  exists l,
    outcome (promiseAll
               (map (fun token =>
                       getTokenBalance env address (tokenAddress token))
                    TOKENS))
    = Ok l.
Proof.
  apply promiseAll_never_rejects, Forall_forall. intros p Hp.
  apply in_map_iff in Hp. destruct Hp as [tok [<- _]].
  apply getTokenBalance_returns.
Qed.

End Traces.

(** Runs the monad on a submission whose every call has been decided, and
    splits its trace where the calls of the resolver and of the token
    fetches lie. *)
Ltac settle :=
  cbn [bind tryCatch tryFinally emit ret throw lift rpc outcome trace
       fst snd app];
  split; [reflexivity|];
  eexists; split;
  [ unfold stateUpdates in *;
    repeat (rewrite ?filter_app; cbn [filter isStateUpdate app]);
    repeat match goal with
           | Hnil : filter isStateUpdate _ = [] |- _ => rewrite Hnil
           end;
    reflexivity
  | eauto ].

(** Editing the input stores the new text and clears the error and the
    result; the loading flag is not touched. *)
Lemma handleAddressChange_clears (st : AppState) (value : jsstring) :
  stateAfter st (trace (handleAddressChange st value))
  = {| walletInput := value; isLoading := isLoading st;
       error := []; walletInfo := None |}.
Proof.
  unfold handleAddressChange.
  destruct st as [i l [|c e] [w|]]; reflexivity.
Qed.

(** On a blank input the handler stops after one [setError]. *)
Lemma handleSubmit_blank (env : Env) (st : AppState) :
  forallb isWhiteSpace (walletInput st) = true ->
  handleSubmit env st = ([PreventDefault; SetError emptyInputMessage], Ok tt).
Proof.
  intros H. apply trim_nil_iff in H.
  unfold handleSubmit. rewrite H. reflexivity.
Qed.

(** On any other input the handler enters the loading state, leaves it
    again, and in between either stores a result or sets the one fixed
    failure message, whatever was thrown. *)
Lemma handleSubmit_settles (env : Env) (st : AppState) :
  forallb isWhiteSpace (walletInput st) = false ->
  outcome (handleSubmit env st) = Ok tt
  /\ exists settled,
      stateUpdates (trace (handleSubmit env st))
      = [SetIsLoading true; SetError []; SetWalletInfo None; settled;
         SetIsLoading false]
      /\ (settled = SetError genericFailureMessage
          \/ exists w, settled = SetWalletInfo (Some w)).
Proof.
  intros H.
  assert (Hf : falsy (trim (walletInput st)) = false).
  { destruct (trim (walletInput st)) eqn:Ht; [|reflexivity].
    apply trim_nil_iff in Ht. congruence. }
  unfold handleSubmit. rewrite Hf. cbv zeta.
  remember (trim (walletInput st)) as input eqn:Hinput.
  pose proof (resolve_no_updates env input) as Hres.
  destruct (resolveAddressAndENS env input) as [t1 [identity|e]];
    unfold trace in Hres; cbn [fst] in Hres.
  - cbn [bind emit rpc lift].
    remember (ResolvedIdentity.address identity) as address eqn:Haddress.
    pose proof (@promiseAll_no_updates _
                  (map (fun token =>
                          getTokenBalance env address (tokenAddress token))
                       TOKENS)) as Htok.
    destruct (promiseAll
                (map (fun token =>
                        getTokenBalance env address (tokenAddress token))
                     TOKENS)) as [t2 r2].
    assert (Ht2 : stateUpdates t2 = []).
    { apply Htok, Forall_forall. intros p Hp.
      apply in_map_iff in Hp. destruct Hp as [tok [<- _]].
      apply getTokenBalance_no_updates. }
    clear Htok.
    destruct (getBalance env address) as [bal|e];
      [destruct (formatEther env bal) as [formatted|e];
       [destruct r2 as [l|e]|]|];
      settle.
  - settle.
Qed.

(** C5: a submission whose input is empty or made of white space only
    issues no request, sets the error message to the fixed text, and
    never turns the loading flag on. *)
Theorem handleSubmit_blank_input_no_rpc (env : Env) (st : AppState) :
  forallb isWhiteSpace (walletInput st) = true ->
  rpcCalls (trace (handleSubmit env st)) = []
  /\ ~ In NewProvider (trace (handleSubmit env st))
  /\ error (stateAfter st (trace (handleSubmit env st)))
     = lit "Please enter a wallet address or ENS Name"
  /\ ~ In (SetIsLoading true) (trace (handleSubmit env st)).
Proof.
  intros H. rewrite (handleSubmit_blank env st H). cbn.
  repeat split; try reflexivity.
  - intros [Hev|[Hev|[]]]; discriminate.
  - intros [Hev|[Hev|[]]]; discriminate.
Qed.

Lemma handleSubmit_blank_input_no_rpc_witness :
  rpcCalls (trace (handleSubmit healthyEnv (typed (lit "   ")))) = []
  /\ ~ In NewProvider (trace (handleSubmit healthyEnv (typed (lit "   "))))
  /\ error (stateAfter (typed (lit "   "))
              (trace (handleSubmit healthyEnv (typed (lit "   ")))))
     = lit "Please enter a wallet address or ENS Name"
  /\ ~ In (SetIsLoading true)
          (trace (handleSubmit healthyEnv (typed (lit "   ")))).
Proof.
  apply (handleSubmit_blank_input_no_rpc healthyEnv (typed (lit "   "))).
  reflexivity.
Defined.

(** C10: the early return on an empty or white-space-only input calls
    no setter but [setError]: the previous result, the loading flag and
    the input text are what they were, so a result shown before is not
    cleared and the loading flag is never set. *)
Theorem handleSubmit_blank_input_frame (env : Env) (st : AppState) :
  forallb isWhiteSpace (walletInput st) = true ->
  stateUpdates (trace (handleSubmit env st)) = [SetError emptyInputMessage]
  /\ stateAfter st (trace (handleSubmit env st))
     = {| walletInput := walletInput st;
          isLoading := isLoading st;
          error := emptyInputMessage;
          walletInfo := walletInfo st |}.
Proof.
  intros H. rewrite (handleSubmit_blank env st H).
  split; reflexivity.
Qed.

Lemma handleSubmit_blank_input_frame_witness :
  stateUpdates (trace (handleSubmit offlineEnv resultShown))
  = [SetError emptyInputMessage]
  /\ stateAfter resultShown (trace (handleSubmit offlineEnv resultShown))
     = {| walletInput := walletInput resultShown;
          isLoading := isLoading resultShown;
          error := emptyInputMessage;
          walletInfo := walletInfo resultShown |}.
Proof.
  apply (handleSubmit_blank_input_frame offlineEnv resultShown).
  reflexivity.
Defined.

(** After a submission that got past the input check, the loading flag is
    off again, and either a result is stored and no error is shown, or no
    result is stored and the error is the fixed failure message. *)
Lemma handleSubmit_ends_loading (env : Env) (st : AppState) :
  forallb isWhiteSpace (walletInput st) = false ->
  let st' := stateAfter st (trace (handleSubmit env st)) in
  isLoading st' = false
  /\ ((error st' = genericFailureMessage /\ walletInfo st' = None)
      \/ (error st' = [] /\ exists w, walletInfo st' = Some w)).
Proof.
  intros H st'. subst st'.
  destruct (handleSubmit_settles env st H) as [_ [settled [Ht Hs]]].
  rewrite stateAfter_stateUpdates, Ht.
  destruct st as [i l e w].
  destruct Hs as [->|[w' ->]]; cbn.
  - split; [reflexivity|]. left. split; reflexivity.
  - split; [reflexivity|]. right. split; [reflexivity|]. eauto.
Qed.

(** C3, on the mocks of the test [handles API errors gracecully]: the
    native balance request rejects with [new Error('Network error')], the
    handler catches that very error, and the message it sets is the fixed
    failure text, not the message of the error followed by the retry
    hint; the loading flag is off afterwards. *)
Theorem handleSubmit_failure_message_not_derived :
  let st := typed sampleWallet in
  let run := handleSubmit balanceDownEnv st in
  let st' := stateAfter st (trace run) in
  getBalance balanceDownEnv sampleWallet = Throw (Error "Network error")
  /\ In (ConsoleError None (Error "Network error")) (trace run)
  /\ error st'
     = lit "Failed to fetch wallet information. Please try again later"
  /\ messageDerivedFrom (Error "Network error")
     = lit "Network error. Please try again later"
  /\ error st' <> messageDerivedFrom (Error "Network error")
  /\ isLoading st' = false.
Proof.
  cbv zeta. repeat split.
  - vm_compute. tauto.
  - vm_compute. discriminate.
Qed.

(** ** More on strings *)

Section TrimFacts.

Lemma trimStart_noLeadingSpace (s : jsstring) : noLeadingSpace (trimStart s).
Proof.
  induction s as [|c t IH]; simpl; [exact I|].
  destruct (isWhiteSpace c) eqn:Hc; [exact IH | exact Hc].
Qed.

Lemma trimStart_fixed (s : jsstring) : noLeadingSpace s -> trimStart s = s.
Proof.
  destruct s as [|c t]; simpl; [reflexivity|].
  intros ->. reflexivity.
Qed.

Lemma trimStart_snoc (l : jsstring) (c : N) :
  isWhiteSpace c = false -> trimStart (l ++ [c]) = trimStart l ++ [c].
Proof.
  intros Hc. induction l as [|a l IH]; simpl.
  - rewrite Hc. reflexivity.
  - destruct (isWhiteSpace a); [exact IH | reflexivity].
Qed.

(** [trimEnd] leaves a first character that is not white space alone. *)
Lemma trimEnd_cons (c : N) (t : jsstring) :
  isWhiteSpace c = false -> trimEnd (c :: t) = c :: trimEnd t.
Proof.
  intros Hc. unfold trimEnd. simpl rev.
  rewrite trimStart_snoc by exact Hc.
  rewrite rev_app_distr. reflexivity.
Qed.

Lemma trimEnd_idempotent (s : jsstring) : trimEnd (trimEnd s) = trimEnd s.
Proof.
  unfold trimEnd. rewrite rev_involutive.
  rewrite (@trimStart_fixed _ (trimStart_noLeadingSpace (rev s))).
  reflexivity.
Qed.

Lemma trimEnd_suffix (s : jsstring) :
  exists q, s = trimEnd s ++ q /\ forallb isWhiteSpace q = true.
Proof.
  destruct (trimStart_suffix (rev s)) as [p [Hp Hw]].
  exists (rev p). split.
  - unfold trimEnd. rewrite <- rev_app_distr, <- Hp, rev_involutive.
    reflexivity.
  - rewrite forallb_forall in *. intros x Hx. apply Hw.
    now apply in_rev.
Qed.

(** What [trim] removes: white space before and after what it keeps. *)
Lemma trim_decompose (s : jsstring) :
  exists p q,
    s = p ++ trim s ++ q
    /\ forallb isWhiteSpace p = true
    /\ forallb isWhiteSpace q = true.
Proof.
  destruct (trimStart_suffix s) as [p [Hp Hwp]].
  destruct (trimEnd_suffix (trimStart s)) as [q [Hq Hwq]].
  exists p, q. unfold trim. rewrite <- Hq. auto.
Qed.

Lemma trim_noLeadingSpace (s : jsstring) : noLeadingSpace (trim s).
Proof.
  unfold trim. pose proof (trimStart_noLeadingSpace s) as H.
  destruct (trimStart s) as [|c t]; [exact I|].
  simpl in H. rewrite (@trimEnd_cons c t H). exact H.
Qed.

(** Trimming twice is trimming once: [resolveAddressAndENS] trims again
    the input that [handleSubmit] has already trimmed. *)
Lemma trim_idempotent (s : jsstring) : trim (trim s) = trim s.
Proof.
  unfold trim at 1.
  rewrite (@trimStart_fixed _ (trim_noLeadingSpace s)).
  unfold trim. apply trimEnd_idempotent.
Qed.

Lemma isENSName_true_iff (s : jsstring) : isENSName s = true <-> In dot s.
Proof.
  unfold isENSName, dot. change (lit ".") with [46%N].
  rewrite andb_true_iff, orb_true_iff, includes_single. tauto.
Qed.

Lemma blank_has_no_dot (p : jsstring) :
  forallb isWhiteSpace p = true -> ~ In dot p.
Proof.
  intros Hw Hin. rewrite forallb_forall in Hw.
  specialize (Hw dot Hin). discriminate.
Qed.

Lemma rpcCalls_app (t t' : list Event) :
  rpcCalls (t ++ t') = rpcCalls t ++ rpcCalls t'.
Proof.
  induction t as [|ev t IH]; [reflexivity|].
  destruct ev; simpl; rewrite ?IH; reflexivity.
Qed.

Lemma consoleErrors_app (t t' : list Event) :
  consoleErrors (t ++ t') = consoleErrors t ++ consoleErrors t'.
Proof.
  induction t as [|ev t IH]; [reflexivity|].
  destruct ev; simpl; rewrite ?IH; reflexivity.
Qed.

End TrimFacts.

(** X1: the classification of an input does not depend on the white space
    around it: [handleSubmit] classifies the trimmed text, and the raw
    text would be classified the same way. *)
Theorem isENSName_trim (input : jsstring) :
  isENSName (trim input) = isENSName input.
Proof.
  apply eq_iff_eq_true. rewrite !isENSName_true_iff.
  destruct (trim_decompose input) as [p [q [Hs [Hp Hq]]]].
  rewrite Hs at 2. rewrite !in_app_iff.
  pose proof (@blank_has_no_dot p Hp). pose proof (@blank_has_no_dot q Hq).
  tauto.
Qed.

(** X2: the abbreviation never has more than thirteen characters, and has
    exactly thirteen as soon as the address has six: its length is
    [min 6 n + 3 + min 4 n] for an address of [n] characters. *)
Theorem shortenAddress_length (address : jsstring) :
  List.length (shortenAddress address)
  = (Nat.min 6 (List.length address) + 3
     + Nat.min 4 (List.length address))%nat.
Proof.
  unfold shortenAddress.
  change 6%Z with (Z.of_nat 6). rewrite slice_prefix.
  change (-4)%Z with (- Z.of_nat 4)%Z. rewrite slice_suffix by lia.
  rewrite !length_app, length_firstn, length_skipn.
  change (List.length (lit "...")) with 3%nat. lia.
Qed.

(** X3: an address of at most four characters is not shortened at all:
    it is shown whole on both sides of the dots. *)
Theorem shortenAddress_short (address : jsstring) :
  (List.length address <= 4)%nat ->
  shortenAddress address = address ++ lit "..." ++ address.
Proof.
  intros H. unfold shortenAddress.
  change 6%Z with (Z.of_nat 6). rewrite slice_prefix.
  change (-4)%Z with (- Z.of_nat 4)%Z. rewrite slice_suffix by lia.
  rewrite firstn_all2 by lia.
  replace (List.length address - 4)%nat with 0%nat by lia.
  reflexivity.
Qed.

Lemma shortenAddress_short_witness :
  shortenAddress (lit "0x1") = lit "0x1...0x1".
Proof.
  apply (@shortenAddress_short (lit "0x1")). simpl. lia.
Defined.

(** ** More on the token balance fetcher *)

(** X4: a result comes without the error flag exactly when every step
    succeeded (canonicalisation, the contract object, the three reads and
    the scaling), and it then carries the symbol, the canonical address,
    the scaled balance and the decimals. *)
Theorem getTokenBalance_success_iff
    (env : Env) (walletAddress tokenAddress : jsstring) (r : TokenBalance.t) :
  outcome (getTokenBalance env walletAddress tokenAddress) = Ok r ->
  (TokenBalance.error r = None
   <-> exists c raw d s b,
         getAddress env tokenAddress = Ok c
         /\ newContract env c = Ok tt
         /\ balanceOf env c walletAddress = Ok raw
         /\ decimals env c = Ok d
         /\ symbol env c = Ok s
         /\ formatUnits env raw d = Ok b
         /\ r = {| TokenBalance.symbol := Some s;
                   TokenBalance.address := c;
                   TokenBalance.balance := Some b;
                   TokenBalance.decimals := Some d;
                   TokenBalance.error := None |}).
Proof.
  unfold getTokenBalance.
  destruct (getAddress env tokenAddress) as [c|e] eqn:Hc; cbn.
  - destruct (newContract env c) as [[]|] eqn:Hn; cbn.
    + destruct (balanceOf env c walletAddress) as [raw|] eqn:Hb,
        (decimals env c) as [d|] eqn:Hd, (symbol env c) as [sy|] eqn:Hs; cbn;
        try (intros H; injection H as <-; split;
             [discriminate
             | intros (c' & raw' & d' & s' & b' & H1 & _ & H3 & H4 & H5 & _);
               congruence]).
      destruct (formatUnits env raw d) as [b|] eqn:Hf; cbn;
        intros H; injection H as <-.
      * split; [|reflexivity].
        intros _. exists c, raw, d, sy, b. repeat split; assumption.
      * split; [discriminate|].
        intros (c' & raw' & d' & s' & b' & H1 & _ & H3 & H4 & _ & H6 & _).
        congruence.
    + intros H; injection H as <-. split; [discriminate|].
      intros (c' & raw' & d' & s' & b' & H1 & H2 & _). congruence.
  - intros H; injection H as <-. split; [discriminate|].
    intros (c' & raw' & d' & s' & b' & H1 & _). discriminate.
Qed.

Lemma getTokenBalance_success_iff_witness :
  TokenBalance.error
    {| TokenBalance.symbol := Some (lit "USDT");
       TokenBalance.address := usdt;
       TokenBalance.balance := Some (lit "1.000000");
       TokenBalance.decimals := Some 6%Z;
       TokenBalance.error := None |} = None
  <-> exists c raw d s b,
        getAddress healthyEnv usdt = Ok c
        /\ newContract healthyEnv c = Ok tt
        /\ balanceOf healthyEnv c sampleWallet = Ok raw
        /\ decimals healthyEnv c = Ok d
        /\ symbol healthyEnv c = Ok s
        /\ formatUnits healthyEnv raw d = Ok b
        /\ {| TokenBalance.symbol := Some (lit "USDT");
              TokenBalance.address := usdt;
              TokenBalance.balance := Some (lit "1.000000");
              TokenBalance.decimals := Some 6%Z;
              TokenBalance.error := None |}
           = {| TokenBalance.symbol := Some s;
                TokenBalance.address := c;
                TokenBalance.balance := Some b;
                TokenBalance.decimals := Some d;
                TokenBalance.error := None |}.
Proof.
  apply (@getTokenBalance_success_iff healthyEnv sampleWallet usdt).
  reflexivity.
Defined.


(** X6: a fetch that fails writes exactly one line to the console, the
    value it caught; a fetch that succeeds writes none. *)
Theorem getTokenBalance_logs_once
    (env : Env) (walletAddress tokenAddress : jsstring) (r : TokenBalance.t) :
  outcome (getTokenBalance env walletAddress tokenAddress) = Ok r ->
  List.length (consoleErrors
                 (trace (getTokenBalance env walletAddress tokenAddress)))
  = match TokenBalance.error r with
    | Some true => 1%nat
    | _ => 0%nat
    end.
Proof.
  unfold getTokenBalance.
  destruct (getAddress env tokenAddress) as [c|e]; cbn;
    [|intros H; injection H as <-; reflexivity].
  destruct (newContract env c); cbn;
    [|intros H; injection H as <-; reflexivity].
  destruct (balanceOf env c walletAddress) as [raw|], (decimals env c) as [d|],
    (symbol env c); cbn;
    try (intros H; injection H as <-; reflexivity).
  destruct (formatUnits env raw d); cbn;
    intros H; injection H as <-; reflexivity.
Qed.

Lemma getTokenBalance_logs_once_witness :
  List.length (consoleErrors
                 (trace (getTokenBalance offlineEnv sampleWallet usdt)))
  = 1%nat.
Proof.
  apply (@getTokenBalance_logs_once offlineEnv sampleWallet usdt
           (tokenFailure usdt)).
  reflexivity.
Defined.

(** ** More on the resolver *)

(** X7: the requests of one resolution.  The ENS path sends the forward
    resolution of the input and nothing else; the address path sends the
    reverse lookup of the canonical address when the input passes
    validation and canonicalisation, and nothing otherwise.  There is
    never a second request. *)
Theorem resolveAddressAndENS_requests (env : Env) (input : jsstring) :
  rpcCalls (trace (resolveAddressAndENS env input))
  = if isENSName input then [ResolveName input]
    else if isAddress env (trim input) then
           match getAddress env (trim input) with
           | Ok a => [LookupAddress a]
           | Throw _ => []
           end
         else [].
Proof.
  unfold resolveAddressAndENS.
  destruct (isENSName input).
  - destruct (resolveName env input) as [[[|c a]|]|e]; reflexivity.
  - destruct (isAddress env (trim input)); [|reflexivity]. cbn.
    destruct (getAddress env (trim input)) as [a|e]; [|reflexivity]. cbn.
    destruct (lookupAddress env a); reflexivity.
Qed.

(** X8: what the resolver throws.  It is the rejection of the forward
    resolution or the exception of the canonicalisation, passed on
    unchanged, or one of two errors of its own: [ENS name could not be
    resolved] when the forward resolution returns no address, [Please
    enter a valid ETH wallet address or ENS name] when the validation
    fails. *)
Theorem resolveAddressAndENS_thrown
    (env : Env) (input : jsstring) (e : Thrown) :
  outcome (resolveAddressAndENS env input) = Throw e ->
  (isENSName input = true
   /\ (resolveName env input = Throw e
       \/ (returnsNoAddress (resolveName env input)
           /\ e = Error "ENS name could not be resolved")))
  \/ (isENSName input = false
      /\ ((isAddress env (trim input) = false
           /\ e = Error "Please enter a valid ETH wallet address or ENS name")
          \/ (isAddress env (trim input) = true
              /\ getAddress env (trim input) = Throw e))).
Proof.
  unfold returnsNoAddress.
  destruct (isENSName input) eqn:Hens.
  - rewrite (resolve_ens_outcome env input Hens).
    destruct (resolveName env input) as [[[|c a]|]|e']; try discriminate;
      intros H; injection H as <-; left; auto.
  - rewrite (resolve_address_outcome env input Hens).
    destruct (isAddress env (trim input)).
    + destruct (getAddress env (trim input)) as [a|e']; [discriminate|].
      intros H; injection H as <-. right; auto.
    + intros H; injection H as <-. right; auto.
Qed.

Lemma resolveAddressAndENS_thrown_witness :
  (isENSName (lit "nope") = true
   /\ (resolveName healthyEnv (lit "nope")
       = Throw (Error "Please enter a valid ETH wallet address or ENS name")
       \/ (returnsNoAddress (resolveName healthyEnv (lit "nope"))
           /\ Error "Please enter a valid ETH wallet address or ENS name"
              = Error "ENS name could not be resolved")))
  \/ (isENSName (lit "nope") = false
      /\ ((isAddress healthyEnv (trim (lit "nope")) = false
           /\ Error "Please enter a valid ETH wallet address or ENS name"
              = Error "Please enter a valid ETH wallet address or ENS name")
          \/ (isAddress healthyEnv (trim (lit "nope")) = true
              /\ getAddress healthyEnv (trim (lit "nope"))
                 = Throw (Error
                            "Please enter a valid ETH wallet address or ENS name")))).
Proof.
  apply (@resolveAddressAndENS_thrown healthyEnv (lit "nope")).
  reflexivity.
Defined.

(** X9: on the address path the ENS name of the result is whatever the
    reverse lookup of the canonical address returned, a name or none. *)
Theorem resolveAddressAndENS_reverse_name
    (env : Env) (input a : jsstring) (name : option jsstring) :
  isENSName input = false ->
  isAddress env (trim input) = true ->
  getAddress env (trim input) = Ok a ->
  lookupAddress env a = Ok name ->
  resolveAddressAndENS env input
  = ([Rpc (LookupAddress a)],
     Ok {| ResolvedIdentity.address := a;
           ResolvedIdentity.ensName := name |}).
Proof.
  intros Hens Hvalid Hsum Hlookup.
  unfold resolveAddressAndENS.
  rewrite Hens, Hvalid. cbn. rewrite Hsum. cbn. rewrite Hlookup.
  reflexivity.
Qed.

(** X10: an identity resolved on the ENS path never has an empty
    address. *)
Theorem resolveAddressAndENS_ens_address_nonempty
    (env : Env) (input : jsstring) (r : ResolvedIdentity.t) :
  isENSName input = true ->
  outcome (resolveAddressAndENS env input) = Ok r ->
  ResolvedIdentity.address r <> [].
Proof.
  intros Hens. rewrite (resolve_ens_outcome env input Hens).
  destruct (resolveName env input) as [[[|c a]|]|e]; try discriminate.
  intros H; injection H as <-. discriminate.
Qed.

Lemma resolveAddressAndENS_ens_address_nonempty_witness :
  sampleWallet <> [].
Proof.
  apply (@resolveAddressAndENS_ens_address_nonempty healthyEnv
           (lit "vitalik.eth")
           {| ResolvedIdentity.address := sampleWallet;
              ResolvedIdentity.ensName := Some (lit "vitalik.eth") |}).
  - reflexivity.
  - reflexivity.
Defined.

Lemma resolveAddressAndENS_reverse_name_witness :
  resolveAddressAndENS namedEnv sampleWallet
  = ([Rpc (LookupAddress sampleWallet)],
     Ok {| ResolvedIdentity.address := sampleWallet;
           ResolvedIdentity.ensName := Some (lit "vitalik.eth") |}).
Proof.
  apply (@resolveAddressAndENS_reverse_name namedEnv sampleWallet
           sampleWallet (Some (lit "vitalik.eth")));
    reflexivity.
Defined.

(** ** More on the submit handler *)

Lemma not_blank_trim (s : jsstring) :
  forallb isWhiteSpace s = false -> falsy (trim s) = false.
Proof.
  intros H. destruct (trim s) eqn:Ht; [|reflexivity].
  apply trim_nil_iff in Ht. congruence.
Qed.

(** Runs the monad and compares two traces up to the bracketing of
    their concatenations. *)
Ltac same_trace :=
  cbn [bind tryCatch tryFinally emit ret throw lift rpc outcome trace
       fst snd app submitPrologue submitFailure];
  repeat first [rewrite <- app_assoc | progress cbn [app]];
  reflexivity.

(** The four ways a submission that got past the input check can go:
    the resolution throws, the balance request rejects, the formatting
    of the balance throws, or everything succeeds and a result is
    stored.  In each case the whole trace is known. *)
Lemma handleSubmit_cases (env : Env) (st : AppState) :
  forallb isWhiteSpace (walletInput st) = false ->
  let input := trim (walletInput st) in
  let resolution := resolveAddressAndENS env input in
  (exists e,
      outcome resolution = Throw e
      /\ trace (handleSubmit env st)
         = submitPrologue ++ trace resolution ++ submitFailure e)
  \/ (exists identity e,
         outcome resolution = Ok identity
         /\ getBalance env (ResolvedIdentity.address identity) = Throw e
         /\ trace (handleSubmit env st)
            = submitPrologue ++ trace resolution
              ++ [Rpc (GetBalance (ResolvedIdentity.address identity))]
              ++ submitFailure e)
  \/ (exists identity balance e,
         outcome resolution = Ok identity
         /\ getBalance env (ResolvedIdentity.address identity) = Ok balance
         /\ formatEther env balance = Throw e
         /\ trace (handleSubmit env st)
            = submitPrologue ++ trace resolution
              ++ [Rpc (GetBalance (ResolvedIdentity.address identity))]
              ++ submitFailure e)
  \/ (exists identity balance formatted fetched,
         outcome resolution = Ok identity
         /\ getBalance env (ResolvedIdentity.address identity) = Ok balance
         /\ formatEther env balance = Ok formatted
         /\ outcome (tokenFetches env (ResolvedIdentity.address identity))
            = Ok fetched
         /\ trace (handleSubmit env st)
            = submitPrologue ++ trace resolution
              ++ [Rpc (GetBalance (ResolvedIdentity.address identity))]
              ++ trace (tokenFetches env (ResolvedIdentity.address identity))
              ++ [SetWalletInfo
                    (Some {| WalletInfo.address :=
                               ResolvedIdentity.address identity;
                             WalletInfo.ensName :=
                               ResolvedIdentity.ensName identity;
                             WalletInfo.balance := formatted;
                             WalletInfo.tokenBalances := fetched |});
                  SetIsLoading false]).
Proof.
  intros H. cbv zeta.
  unfold handleSubmit. rewrite (not_blank_trim _ H). cbv zeta.
  fold (tokenFetches env).
  remember (trim (walletInput st)) as input eqn:Hinput.
  destruct (resolveAddressAndENS env input) as [t1 [identity|e]].
  - cbn [bind emit rpc lift].
    remember (ResolvedIdentity.address identity) as address eqn:Haddress.
    change (promiseAll
              (map (fun token =>
                      getTokenBalance env address (tokenAddress token))
                 TOKENS))
      with (tokenFetches env address).
    destruct (tokenFetches_never_reject env address) as [fetched Hfetched].
    fold (tokenFetches env address) in Hfetched.
    destruct (tokenFetches env address) as [t2 r2] eqn:Htok.
    unfold outcome in Hfetched. cbn [snd] in Hfetched. subst r2.
    destruct (getBalance env address) as [bal|e] eqn:Hbal;
      [destruct (formatEther env bal) as [formatted|e] eqn:Hfmt|].
    + do 3 right. exists identity, bal, formatted, fetched.
      rewrite <- Haddress, Htok.
      do 4 (split; [first [reflexivity | assumption]|]).
      same_trace.
    + do 2 right. left. exists identity, bal, e. rewrite <- Haddress.
      do 3 (split; [first [reflexivity | assumption]|]).
      same_trace.
    + right. left. exists identity, e. rewrite <- Haddress.
      do 2 (split; [first [reflexivity | assumption]|]).
      same_trace.
  - left. exists e. split; [reflexivity|].
    same_trace.
Qed.

Section SubmitFacts.

Variable env : Env.

Lemma tokenFetches_no_updates (address : jsstring) :
  stateUpdates (trace (tokenFetches env address)) = [].
Proof.
  apply promiseAll_no_updates, Forall_forall. intros p Hp.
  apply in_map_iff in Hp. destruct Hp as [tok [<- _]].
  apply getTokenBalance_no_updates.
Qed.

(** The members of a joined array, in the order of the array. *)
Lemma promiseAll_in_order {A} (ps : list (M A)) (l : list A) :
  outcome (promiseAll ps) = Ok l ->
  Forall2 (fun p a => outcome p = Ok a) ps l.
Proof.
  revert l. induction ps as [|[t r] ps IH]; intros l.
  - cbn. intros H; injection H as <-. constructor.
  - cbn [promiseAll]. destruct (promiseAll ps) as [t' r'].
    unfold outcome in *. cbn [snd] in *.
    destruct r as [a|e]; [destruct r' as [l'|e]|]; try discriminate.
    intros H; injection H as <-. constructor; [reflexivity | auto].
Qed.

Lemma promiseAll_requests {A} (ps : list (M A)) (c : RpcCall) :
  In c (rpcCalls (trace (promiseAll ps))) ->
  exists p, In p ps /\ In c (rpcCalls (trace p)).
Proof.
  induction ps as [|[t r] ps IH]; [intros []|].
  cbn [promiseAll]. destruct (promiseAll ps) as [t' r'].
  unfold trace in *. cbn [fst] in *.
  rewrite rpcCalls_app, in_app_iff. intros [H|H].
  - exists (t, r). split; [left; reflexivity | exact H].
  - destruct (IH H) as [p [Hp Hc]]. exists p. split; [right|]; assumption.
Qed.

Lemma promiseAll_requests_bound {A} (ps : list (M A)) (n : nat) :
  Forall (fun p => (List.length (rpcCalls (trace p)) <= n)%nat) ps ->
  (List.length (rpcCalls (trace (promiseAll ps))) <= n * List.length ps)%nat.
Proof.
  induction 1 as [|[t r] ps Hp _ IH]; [cbn; lia|].
  cbn [promiseAll]. destruct (promiseAll ps) as [t' r'].
  unfold trace in *. cbn [fst] in *.
  rewrite rpcCalls_app, length_app. cbn [List.length]. lia.
Qed.

(** Every request of a token fetch is one of the three reads, at the
    canonical form of the token address. *)
Lemma getTokenBalance_request_shape (wallet token : jsstring) (c : RpcCall) :
  In c (rpcCalls (trace (getTokenBalance env wallet token))) ->
  exists canonical,
    getAddress env token = Ok canonical
    /\ (c = BalanceOf canonical wallet \/ c = Decimals canonical
        \/ c = Symbol canonical).
Proof.
  unfold getTokenBalance.
  destruct (getAddress env token) as [canonical|e]; [|intros []].
  cbn. destruct (newContract env canonical); [|intros []]. cbn.
  assert (Hshape : In c [BalanceOf canonical wallet; Decimals canonical;
                         Symbol canonical] ->
                   exists canonical0,
                     Ok canonical = Ok canonical0
                     /\ (c = BalanceOf canonical0 wallet
                         \/ c = Decimals canonical0
                         \/ c = Symbol canonical0)).
  { intros [H|[H|[H|[]]]]; exists canonical; split; auto. }
  destruct (balanceOf env canonical wallet) as [raw|],
    (decimals env canonical) as [d|], (symbol env canonical);
    try exact Hshape.
  cbn. destruct (formatUnits env raw d); exact Hshape.
Qed.

Lemma getTokenBalance_request_count (wallet token : jsstring) :
  (List.length (rpcCalls (trace (getTokenBalance env wallet token))) <= 3)%nat.
Proof.
  unfold getTokenBalance.
  destruct (getAddress env token) as [c|e]; [|cbn; lia]. cbn.
  destruct (newContract env c); [|cbn; lia]. cbn.
  destruct (balanceOf env c wallet) as [raw|], (decimals env c) as [d|],
    (symbol env c); try (cbn; lia).
  cbn. destruct (formatUnits env raw d); cbn; lia.
Qed.

Lemma resolve_request_count (input : jsstring) :
  (List.length (rpcCalls (trace (resolveAddressAndENS env input))) <= 1)%nat.
Proof.
  unfold resolveAddressAndENS.
  destruct (isENSName input).
  - destruct (resolveName env input) as [[[|c a]|]|e]; cbn; lia.
  - destruct (isAddress env (trim input)); [|cbn; lia]. cbn.
    destruct (getAddress env (trim input)) as [a|e]; [|cbn; lia]. cbn.
    destruct (lookupAddress env a); cbn; lia.
Qed.

(** The resolver asks for no balance and reads no token. *)
Lemma resolve_request_shape (input : jsstring) (c : RpcCall) :
  In c (rpcCalls (trace (resolveAddressAndENS env input))) ->
  (exists name, c = ResolveName name) \/ (exists a, c = LookupAddress a).
Proof.
  unfold resolveAddressAndENS.
  destruct (isENSName input).
  - destruct (resolveName env input) as [[[|c' a]|]|e]; cbn;
      intros [<-|[]]; left; eauto.
  - destruct (isAddress env (trim input)); [|intros []]. cbn.
    destruct (getAddress env (trim input)) as [a|e]; [|intros []]. cbn.
    destruct (lookupAddress env a); cbn; intros [<-|[]]; right; eauto.
Qed.

Lemma tokenFetches_request_count (address : jsstring) :
  (List.length (rpcCalls (trace (tokenFetches env address))) <= 6)%nat.
Proof.
  change 6%nat with (3 * List.length
                           (map (fun token =>
                                   getTokenBalance env address
                                     (tokenAddress token))
                              TOKENS))%nat.
  apply promiseAll_requests_bound, Forall_forall. intros p Hp.
  apply in_map_iff in Hp. destruct Hp as [tok [<- _]].
  apply getTokenBalance_request_count.
Qed.

Lemma tokenFetches_request_shape (address : jsstring) (c : RpcCall) :
  In c (rpcCalls (trace (tokenFetches env address))) ->
  exists token canonical,
    In token TOKENS
    /\ getAddress env (tokenAddress token) = Ok canonical
    /\ (c = BalanceOf canonical address \/ c = Decimals canonical
        \/ c = Symbol canonical).
Proof.
  intros H. apply promiseAll_requests in H. destruct H as [p [Hp Hc]].
  apply in_map_iff in Hp. destruct Hp as [tok [<- Htok]].
  apply getTokenBalance_request_shape in Hc.
  destruct Hc as [canonical [Hsum Hshape]]. eauto.
Qed.

End SubmitFacts.

(** X11: the handler itself never throws: whatever the collaborators do
    and whatever the state, its promise resolves. *)
Theorem handleSubmit_never_throws (env : Env) (st : AppState) :
  outcome (handleSubmit env st) = Ok tt.
Proof.
  destruct (forallb isWhiteSpace (walletInput st)) eqn:H.
  - rewrite (handleSubmit_blank env st H). reflexivity.
  - apply (handleSubmit_settles env st H).
Qed.

(** X12: token failures are isolated.  Once the resolution, the balance
    request and the formatting of the balance have succeeded, the
    submission stores a complete result, clears the error and ends the
    loading state, whatever the token reads do; the result holds the
    resolved address and name, the formatted balance, and what the token
    fetches returned. *)
Theorem handleSubmit_success
    (env : Env) (st : AppState) (identity : ResolvedIdentity.t)
    (balance : Z) (formatted : jsstring) :
  forallb isWhiteSpace (walletInput st) = false ->
  outcome (resolveAddressAndENS env (trim (walletInput st))) = Ok identity ->
  getBalance env (ResolvedIdentity.address identity) = Ok balance ->
  formatEther env balance = Ok formatted ->
  exists fetched,
    outcome (tokenFetches env (ResolvedIdentity.address identity)) = Ok fetched
    /\ stateAfter st (trace (handleSubmit env st))
       = {| walletInput := walletInput st;
            isLoading := false;
            error := [];
            walletInfo :=
              Some {| WalletInfo.address := ResolvedIdentity.address identity;
                      WalletInfo.ensName := ResolvedIdentity.ensName identity;
                      WalletInfo.balance := formatted;
                      WalletInfo.tokenBalances := fetched |} |}.
Proof.
  intros H Hres Hbal Hfmt.
  destruct (handleSubmit_cases env st H)
    as [(e & Hr & _)
       |[(id & e & Hr & Hb & _)
        |[(id & bal & e & Hr & Hb & Hf & _)
         |(id & bal & f & fetched & Hr & Hb & Hf & Htok & Htrace)]]];
    rewrite Hres in Hr; try discriminate; injection Hr as <-;
    rewrite Hbal in Hb; try discriminate; injection Hb as <-;
    rewrite Hfmt in Hf; try discriminate; injection Hf as <-.
  exists fetched. split; [exact Htok|].
  rewrite stateAfter_stateUpdates, Htrace.
  rewrite !stateUpdates_app, resolve_no_updates, tokenFetches_no_updates.
  destruct st; reflexivity.
Qed.

Lemma handleSubmit_success_witness :
  exists fetched,
    outcome (tokenFetches offlineTokensEnv sampleWallet) = Ok fetched
    /\ stateAfter (typed (lit " vitalik.eth "))
         (trace (handleSubmit offlineTokensEnv (typed (lit " vitalik.eth "))))
       = {| walletInput := lit " vitalik.eth ";
            isLoading := false;
            error := [];
            walletInfo :=
              Some {| WalletInfo.address := sampleWallet;
                      WalletInfo.ensName := Some (lit "vitalik.eth");
                      WalletInfo.balance := lit "1.5";
                      WalletInfo.tokenBalances := fetched |} |}.
Proof.
  apply (@handleSubmit_success offlineTokensEnv (typed (lit " vitalik.eth "))
           {| ResolvedIdentity.address := sampleWallet;
              ResolvedIdentity.ensName := Some (lit "vitalik.eth") |}
           1500000000000000000%Z (lit "1.5"));
    reflexivity.
Defined.

(** X13: a submission fails as a whole exactly through its first three
    stages.  When the resolution throws, the balance request rejects or
    the formatting of the balance throws, the state afterwards has the
    input unchanged, the loading flag off, the fixed failure message and
    no result. *)
Theorem handleSubmit_failure (env : Env) (st : AppState) :
  forallb isWhiteSpace (walletInput st) = false ->
  (throws (resolveAddressAndENS env (trim (walletInput st)))
   \/ (exists identity,
          outcome (resolveAddressAndENS env (trim (walletInput st)))
          = Ok identity
          /\ (rejects (getBalance env (ResolvedIdentity.address identity))
              \/ exists balance,
                  getBalance env (ResolvedIdentity.address identity)
                  = Ok balance
                  /\ rejects (formatEther env balance)))) ->
  stateAfter st (trace (handleSubmit env st))
  = {| walletInput := walletInput st;
       isLoading := false;
       error := genericFailureMessage;
       walletInfo := None |}.
Proof.
  intros H Hfail.
  assert (Hdone : forall prefix e,
             stateUpdates prefix = [] ->
             stateAfter st (submitPrologue ++ prefix ++ submitFailure e)
             = {| walletInput := walletInput st; isLoading := false;
                  error := genericFailureMessage; walletInfo := None |}).
  { intros prefix e Hp.
    rewrite stateAfter_stateUpdates, !stateUpdates_app, Hp.
    destruct st; reflexivity. }
  unfold throws, rejects in Hfail.
  destruct (handleSubmit_cases env st H)
    as [(e & Hr & Htrace)
       |[(id & e & Hr & Hb & Htrace)
        |[(id & bal & e & Hr & Hb & Hf & Htrace)
         |(id & bal & f & fetched & Hr & Hb & Hf & _)]]];
    rewrite Htrace || idtac.
  - apply Hdone, resolve_no_updates.
  - rewrite (app_assoc (trace _) [_]). apply Hdone.
    rewrite stateUpdates_app, resolve_no_updates. reflexivity.
  - rewrite (app_assoc (trace _) [_]). apply Hdone.
    rewrite stateUpdates_app, resolve_no_updates. reflexivity.
  - exfalso. rewrite Hr in Hfail.
    destruct Hfail as [[]|(id' & Hid & Hrest)].
    injection Hid as <-. rewrite Hb in Hrest.
    destruct Hrest as [[]|(bal' & Hbal' & Hrej)].
    injection Hbal' as <-. rewrite Hf in Hrej. exact Hrej.
Qed.

Lemma handleSubmit_failure_witness :
  stateAfter (typed sampleWallet)
    (trace (handleSubmit balanceDownEnv (typed sampleWallet)))
  = {| walletInput := sampleWallet;
       isLoading := false;
       error := genericFailureMessage;
       walletInfo := None |}.
Proof.
  apply (@handleSubmit_failure balanceDownEnv (typed sampleWallet)).
  - reflexivity.
  - right.
    exists {| ResolvedIdentity.address := sampleWallet;
              ResolvedIdentity.ensName := None |}.
    split; [reflexivity|]. left. vm_compute. exact I.
Defined.

(** The state after a submission holds a result only when the fourth case
    of [handleSubmit_cases] applies. *)
Lemma handleSubmit_stored (env : Env) (st : AppState) (w : WalletInfo.t) :
  forallb isWhiteSpace (walletInput st) = false ->
  walletInfo (stateAfter st (trace (handleSubmit env st))) = Some w ->
  exists identity balance formatted fetched,
    outcome (resolveAddressAndENS env (trim (walletInput st))) = Ok identity
    /\ getBalance env (ResolvedIdentity.address identity) = Ok balance
    /\ formatEther env balance = Ok formatted
    /\ outcome (tokenFetches env (ResolvedIdentity.address identity))
       = Ok fetched
    /\ w = {| WalletInfo.address := ResolvedIdentity.address identity;
              WalletInfo.ensName := ResolvedIdentity.ensName identity;
              WalletInfo.balance := formatted;
              WalletInfo.tokenBalances := fetched |}.
Proof.
  intros H.
  destruct (handleSubmit_cases env st H)
    as [(e & Hr & Htrace)
       |[(id & e & Hr & Hb & Htrace)
        |[(id & bal & e & Hr & Hb & Hf & Htrace)
         |(id & bal & f & fetched & Hr & Hb & Hf & Htok & Htrace)]]];
    rewrite stateAfter_stateUpdates, Htrace;
    rewrite !stateUpdates_app, ?resolve_no_updates, ?tokenFetches_no_updates;
    destruct st; cbn; try discriminate.
  intros Hw; injection Hw as <-.
  exists id, bal, f, fetched. auto.
Qed.

(** X14: the token list of a stored result has one entry per configured
    token, in the order of [TOKENS], and each entry is what
    [getTokenBalance] returned for that token at the address of the
    result. *)
Theorem handleSubmit_token_order
    (env : Env) (st : AppState) (w : WalletInfo.t) :
  forallb isWhiteSpace (walletInput st) = false ->
  walletInfo (stateAfter st (trace (handleSubmit env st))) = Some w ->
  Forall2
    (fun token fetched =>
       outcome (getTokenBalance env (WalletInfo.address w)
                  (tokenAddress token))
       = Ok fetched)
    TOKENS (WalletInfo.tokenBalances w).
Proof.
  intros H Hw.
  destruct (handleSubmit_stored env st H Hw)
    as (id & bal & f & fetched & _ & _ & _ & Htok & ->).
  cbn [WalletInfo.address WalletInfo.tokenBalances].
  apply promiseAll_in_order in Htok. clear Hw.
  remember TOKENS as tokens eqn:Htokens. clear Htokens.
  revert fetched Htok.
  induction tokens as [|tok tokens IH]; intros fetched Htok;
    inversion Htok; subst; constructor; auto.
Qed.

Lemma handleSubmit_token_order_witness :
  Forall2
    (fun token fetched =>
       outcome (getTokenBalance offlineTokensEnv sampleWallet
                  (tokenAddress token))
       = Ok fetched)
    TOKENS (map (fun token => tokenFailure (tokenAddress token)) TOKENS).
Proof.
  apply (@handleSubmit_token_order offlineTokensEnv
           (typed (lit "vitalik.eth"))
           {| WalletInfo.address := sampleWallet;
              WalletInfo.ensName := Some (lit "vitalik.eth");
              WalletInfo.balance := lit "1.5";
              WalletInfo.tokenBalances :=
                map (fun token => tokenFailure (tokenAddress token)) TOKENS |});
    reflexivity.
Defined.

(** The requests of a submission, stage by stage. *)
Lemma handleSubmit_request_origin
    (env : Env) (st : AppState) (c : RpcCall) :
  In c (rpcCalls (trace (handleSubmit env st))) ->
  In c (rpcCalls (trace (resolveAddressAndENS env (trim (walletInput st)))))
  \/ (exists identity,
         outcome (resolveAddressAndENS env (trim (walletInput st)))
         = Ok identity
         /\ (c = GetBalance (ResolvedIdentity.address identity)
             \/ (exists balance,
                    getBalance env (ResolvedIdentity.address identity)
                    = Ok balance
                    /\ In c (rpcCalls
                               (trace (tokenFetches env
                                         (ResolvedIdentity.address
                                            identity))))))).
Proof.
  destruct (forallb isWhiteSpace (walletInput st)) eqn:H.
  - rewrite (handleSubmit_blank env st H). intros [].
  - destruct (handleSubmit_cases env st H)
      as [(e & Hr & Htrace)
         |[(id & e & Hr & Hb & Htrace)
          |[(id & bal & e & Hr & Hb & Hf & Htrace)
           |(id & bal & f & fetched & Hr & Hb & Hf & Htok & Htrace)]]];
      rewrite Htrace, !rpcCalls_app, !in_app_iff; cbn;
      intros Hin; decompose [or] Hin; subst; try tauto.
    + right. exists id. auto.
    + right. exists id. auto.
    + right. exists id. auto.
    + right. exists id. split; [assumption|]. right. exists bal. auto.
Qed.

(** X15: the native balance is requested only once the resolution has
    succeeded, and only for the resolved address. *)
Theorem handleSubmit_balance_after_resolution
    (env : Env) (st : AppState) (a : jsstring) :
  In (GetBalance a) (rpcCalls (trace (handleSubmit env st))) ->
  exists identity,
    outcome (resolveAddressAndENS env (trim (walletInput st))) = Ok identity
    /\ a = ResolvedIdentity.address identity.
Proof.
  intros H. apply handleSubmit_request_origin in H.
  destruct H as [H|(id & Hr & [H|(bal & _ & H)])].
  - apply resolve_request_shape in H.
    destruct H as [[n H]|[n H]]; discriminate.
  - injection H as ->. eauto.
  - apply tokenFetches_request_shape in H.
    destruct H as (tok & can & _ & _ & [H|[H|H]]); discriminate.
Qed.

Lemma handleSubmit_balance_after_resolution_witness :
  exists identity,
    outcome (resolveAddressAndENS balanceDownEnv (trim sampleWallet))
    = Ok identity
    /\ sampleWallet = ResolvedIdentity.address identity.
Proof.
  apply (@handleSubmit_balance_after_resolution balanceDownEnv
           (typed sampleWallet) sampleWallet).
  vm_compute. tauto.
Defined.

(** X16: a token contract is read only once the resolution and the
    balance request have succeeded; the read is for the resolved wallet,
    at the canonical form of an address of [TOKENS]. *)
Theorem handleSubmit_token_reads_after_balance
    (env : Env) (st : AppState) (contract wallet : jsstring) :
  In (BalanceOf contract wallet) (rpcCalls (trace (handleSubmit env st))) ->
  exists identity balance token,
    outcome (resolveAddressAndENS env (trim (walletInput st))) = Ok identity
    /\ wallet = ResolvedIdentity.address identity
    /\ getBalance env wallet = Ok balance
    /\ In token TOKENS
    /\ getAddress env (tokenAddress token) = Ok contract.
Proof.
  intros H. apply handleSubmit_request_origin in H.
  destruct H as [H|(id & Hr & [H|(bal & Hb & H)])].
  - apply resolve_request_shape in H.
    destruct H as [[n H]|[n H]]; discriminate.
  - discriminate.
  - apply tokenFetches_request_shape in H.
    destruct H as (tok & can & Htok & Hsum & [H|[H|H]]); try discriminate.
    injection H as -> ->. exists id, bal, tok. auto.
Qed.

Lemma handleSubmit_token_reads_after_balance_witness :
  exists identity balance token,
    outcome (resolveAddressAndENS healthyEnv (trim (lit "vitalik.eth")))
    = Ok identity
    /\ sampleWallet = ResolvedIdentity.address identity
    /\ getBalance healthyEnv sampleWallet = Ok balance
    /\ In token TOKENS
    /\ getAddress healthyEnv (tokenAddress token) = Ok usdt.
Proof.
  apply (@handleSubmit_token_reads_after_balance healthyEnv
           (typed (lit "vitalik.eth")) usdt sampleWallet).
  vm_compute. tauto.
Defined.

(** X17: one submission sends at most eight requests: one for the
    resolution, one for the balance, three for each of the two tokens. *)
Theorem handleSubmit_request_bound (env : Env) (st : AppState) :
  (List.length (rpcCalls (trace (handleSubmit env st))) <= 8)%nat.
Proof.
  destruct (forallb isWhiteSpace (walletInput st)) eqn:H.
  - rewrite (handleSubmit_blank env st H). cbn. lia.
  - pose proof (resolve_request_count env (trim (walletInput st))) as Hres.
    destruct (handleSubmit_cases env st H)
      as [(e & Hr & Htrace)
         |[(id & e & Hr & Hb & Htrace)
          |[(id & bal & e & Hr & Hb & Hf & Htrace)
           |(id & bal & f & fetched & Hr & Hb & Hf & Htok & Htrace)]]];
      rewrite Htrace, !rpcCalls_app, !length_app; cbn [rpcCalls
        submitPrologue submitFailure List.length]; try lia.
    pose proof (tokenFetches_request_count env
                  (ResolvedIdentity.address id)).
    lia.
Qed.

(** X18: an address candidate that fails the format validation costs no
    request: the submission stops before anything is sent, and stores no
    result. *)
Theorem handleSubmit_invalid_address_no_request (env : Env) (st : AppState) :
  forallb isWhiteSpace (walletInput st) = false ->
  isENSName (trim (walletInput st)) = false ->
  isAddress env (trim (walletInput st)) = false ->
  rpcCalls (trace (handleSubmit env st)) = []
  /\ walletInfo (stateAfter st (trace (handleSubmit env st))) = None.
Proof.
  intros H Hens Hvalid.
  assert (Hres : resolveAddressAndENS env (trim (walletInput st))
                 = ([], Throw (Error
                      "Please enter a valid ETH wallet address or ENS name"))).
  { unfold resolveAddressAndENS.
    rewrite Hens, trim_idempotent, Hvalid. reflexivity. }
  destruct (handleSubmit_cases env st H)
    as [(e & Hr & Htrace)
       |[(id & e & Hr & _)
        |[(id & bal & e & Hr & _)
         |(id & bal & f & fetched & Hr & _)]]];
    rewrite Hres in *; try discriminate.
  rewrite Htrace. split; [reflexivity|].
  destruct st; reflexivity.
Qed.

Lemma handleSubmit_invalid_address_no_request_witness :
  rpcCalls (trace (handleSubmit healthyEnv (typed (lit "invalid-address"))))
  = []
  /\ walletInfo (stateAfter (typed (lit "invalid-address"))
                   (trace (handleSubmit healthyEnv
                             (typed (lit "invalid-address")))))
     = None.
Proof.
  apply (@handleSubmit_invalid_address_no_request healthyEnv
           (typed (lit "invalid-address")));
    reflexivity.
Defined.

(** X19: a result obtained for an ENS-style input shows the trimmed
    input as its name and, as its address, exactly what the forward
    resolution returned; the whole submission never asks for a reverse
    lookup. *)
Theorem handleSubmit_ens_result
    (env : Env) (st : AppState) (w : WalletInfo.t) :
  forallb isWhiteSpace (walletInput st) = false ->
  isENSName (trim (walletInput st)) = true ->
  walletInfo (stateAfter st (trace (handleSubmit env st))) = Some w ->
  WalletInfo.ensName w = Some (trim (walletInput st))
  /\ resolveName env (trim (walletInput st)) = Ok (Some (WalletInfo.address w))
  /\ forall a,
      ~ In (LookupAddress a) (rpcCalls (trace (handleSubmit env st))).
Proof.
  intros H Hens Hw.
  destruct (handleSubmit_stored env st H Hw)
    as (id & bal & f & fetched & Hr & _ & _ & _ & ->).
  cbn [WalletInfo.address WalletInfo.ensName].
  rewrite (resolve_ens_outcome env _ Hens) in Hr.
  repeat split.
  - destruct (resolveName env (trim (walletInput st))) as [[[|c s]|]|e];
      try discriminate.
    injection Hr as <-. reflexivity.
  - destruct (resolveName env (trim (walletInput st))) as [[[|c s]|]|e];
      try discriminate.
    injection Hr as <-. reflexivity.
  - intros a Hin. apply handleSubmit_request_origin in Hin.
    destruct Hin as [Hin|(id' & _ & [Hin|(bal' & _ & Hin)])].
    + rewrite (resolve_ens_trace env _ Hens) in Hin.
      destruct Hin as [Hin|[]]. discriminate.
    + discriminate.
    + apply tokenFetches_request_shape in Hin.
      destruct Hin as (tok & can & _ & _ & [Hin|[Hin|Hin]]); discriminate.
Qed.

Lemma handleSubmit_ens_result_witness :
  Some (lit "vitalik.eth") = Some (trim (lit " vitalik.eth "))
  /\ resolveName healthyEnv (trim (lit " vitalik.eth "))
     = Ok (Some sampleWallet)
  /\ forall a,
      ~ In (LookupAddress a)
           (rpcCalls (trace (handleSubmit healthyEnv
                               (typed (lit " vitalik.eth "))))).
Proof.
  apply (@handleSubmit_ens_result healthyEnv (typed (lit " vitalik.eth "))
           {| WalletInfo.address := sampleWallet;
              WalletInfo.ensName := Some (lit "vitalik.eth");
              WalletInfo.balance := lit "1.5";
              WalletInfo.tokenBalances :=
                [ {| TokenBalance.symbol := Some (lit "USDT");
                     TokenBalance.address := tokenAddress (nth 0 TOKENS
                                               {| tokenAddress := [];
                                                  tokenName := [] |});
                     TokenBalance.balance := Some (lit "1.000000");
                     TokenBalance.decimals := Some 6%Z;
                     TokenBalance.error := None |};
                  {| TokenBalance.symbol := Some (lit "USDT");
                     TokenBalance.address := tokenAddress (nth 1 TOKENS
                                               {| tokenAddress := [];
                                                  tokenName := [] |});
                     TokenBalance.balance := Some (lit "1.000000");
                     TokenBalance.decimals := Some 6%Z;
                     TokenBalance.error := None |} ] |});
    reflexivity.
Defined.

(** Submitting never changes the text of the input. *)
Lemma handleSubmit_keeps_input (env : Env) (st : AppState) :
  walletInput (stateAfter st (trace (handleSubmit env st))) = walletInput st.
Proof.
  destruct (forallb isWhiteSpace (walletInput st)) eqn:H.
  - rewrite (handleSubmit_blank env st H). reflexivity.
  - destruct (handleSubmit_settles env st H) as [_ [settled [Ht Hs]]].
    rewrite stateAfter_stateUpdates, Ht.
    destruct st. destruct Hs as [->|[w ->]]; reflexivity.
Qed.

(** X20: typing into the input sends no request and cannot throw; it
    stores the new text, clears the error message and the result, and
    leaves the loading flag as it was. *)
Theorem handleAddressChange_effect (st : AppState) (value : jsstring) :
  outcome (handleAddressChange st value) = Ok tt
  /\ rpcCalls (trace (handleAddressChange st value)) = []
  /\ stateAfter st (trace (handleAddressChange st value))
     = {| walletInput := value; isLoading := isLoading st;
          error := []; walletInfo := None |}.
Proof.
  unfold handleAddressChange.
  destruct st as [i l [|c e] [w|]]; repeat split; reflexivity.
Qed.

(** ** The state machine *)

Section Reachable.

Lemma runActions_snoc (st : AppState) (actions : list Action) (a : Action) :
  runActions st (actions ++ [a]) = step (runActions st actions) a.
Proof. unfold runActions. rewrite fold_left_app. reflexivity. Qed.

Lemma step_edit (st : AppState) (value : jsstring) :
  step st (Edit value)
  = {| walletInput := value; isLoading := isLoading st;
       error := []; walletInfo := None |}.
Proof.
  unfold step, handler, handleAddressChange.
  destruct st as [i l [|c e] [w|]]; reflexivity.
Qed.

Lemma step_preserves_idle (st : AppState) (a : Action) :
  idleInvariant st -> idleInvariant (step st a).
Proof.
  intros (Hload & Herr & Hres). destruct a as [value|env].
  - rewrite step_edit. unfold idleInvariant. cbn.
    split; [exact Hload|]. split; [auto|]. intros w Hw. discriminate.
  - unfold step, handler.
    destruct (forallb isWhiteSpace (walletInput st)) eqn:Hblank.
    + rewrite (handleSubmit_blank env st Hblank).
      destruct (walletInfo st) as [w|] eqn:Hw.
      * destruct (Hres w eq_refl) as (_ & Hnb & _). congruence.
      * destruct st as [i l e w]. cbn in *. subst. unfold idleInvariant. cbn.
        split; [reflexivity|]. split; [auto|]. intros w Hw. discriminate.
    + pose proof (handleSubmit_keeps_input env st) as Hin.
      destruct (handleSubmit_ends_loading env st Hblank) as [Hl Hcases].
      cbv zeta in Hl, Hcases. unfold idleInvariant, resultFitsInput.
      rewrite Hl, Hin. split; [reflexivity|].
      destruct Hcases as [[He Hw]|[He [w Hw]]]; rewrite He, Hw.
      * split; [auto|]. discriminate.
      * split; [auto|]. intros w' Hw'. injection Hw' as <-.
        split; [reflexivity|].
        split; [exact Hblank|]. intros Hens.
        destruct (handleSubmit_stored env st Hblank Hw)
          as (id & bal & f & fetched & Hr & _ & _ & _ & ->).
        cbn [WalletInfo.address WalletInfo.ensName].
        rewrite (resolve_ens_outcome env _ Hens) in Hr.
        destruct (resolveName env (trim (walletInput st))) as [[[|c s]|]|e];
          try discriminate.
        injection Hr as <-. split; [reflexivity | discriminate].
Qed.

Lemma reachable_idle (actions : list Action) :
  idleInvariant (runActions initialState actions).
Proof.
  induction actions as [|a actions IH] using rev_ind.
  - unfold idleInvariant. cbn.
    split; [reflexivity|]. split; [auto|]. intros w Hw. discriminate.
  - rewrite runActions_snoc. apply step_preserves_idle, IH.
Qed.

End Reachable.

(** X21: after any sequence of edits and submissions, met by any
    endpoints, the component is not loading, and it never holds a result
    together with an error message. *)
Theorem reachable_settled (actions : list Action) :
  let st := runActions initialState actions in
  isLoading st = false
  /\ (error st = [] \/ walletInfo st = None).
Proof.
  cbv zeta. destruct (reachable_idle actions) as (Hload & _ & Hres).
  split; [exact Hload|].
  destruct (walletInfo (runActions initialState actions)) as [w|];
    [left; apply (Hres w eq_refl) | right; reflexivity].
Qed.

(** X22: the component only ever shows two error texts: the request to
    enter an address, and the fixed failure message.  The messages of
    the errors thrown by the resolver or by the endpoint are never
    shown. *)
Theorem reachable_error_messages (actions : list Action) :
  let st := runActions initialState actions in
  error st = []
  \/ error st = lit "Please enter a wallet address or ENS Name"
  \/ error st
     = lit "Failed to fetch wallet information. Please try again later".
Proof.
  cbv zeta. apply (reachable_idle actions).
Qed.

(** X23: after any sequence of edits and submissions, a stored result
    fits the text currently in the input: that text is not blank, and
    when it is ENS-style the result carries the trimmed text as its ENS
    name and an address that is not empty. *)
Theorem reachable_result_fits_input
    (actions : list Action) (w : WalletInfo.t) :
  let st := runActions initialState actions in
  walletInfo st = Some w ->
  forallb isWhiteSpace (walletInput st) = false
  /\ (isENSName (trim (walletInput st)) = true ->
      WalletInfo.ensName w = Some (trim (walletInput st))
      /\ WalletInfo.address w <> []).
Proof.
  cbv zeta. intros Hw.
  destruct (reachable_idle actions) as (_ & _ & Hres).
  apply (Hres w Hw).
Qed.

Lemma reachable_result_fits_input_witness :
  forallb isWhiteSpace (lit " vitalik.eth") = false
  /\ (isENSName (trim (lit " vitalik.eth")) = true ->
      Some (lit "vitalik.eth") = Some (trim (lit " vitalik.eth"))
      /\ sampleWallet <> []).
Proof.
  apply (@reachable_result_fits_input
           [Edit (lit "x"); Submit offlineEnv;
            Edit (lit " vitalik.eth"); Submit offlineTokensEnv]
           {| WalletInfo.address := sampleWallet;
              WalletInfo.ensName := Some (lit "vitalik.eth");
              WalletInfo.balance := lit "1.5";
              WalletInfo.tokenBalances :=
                map (fun token => tokenFailure (tokenAddress token))
                  TOKENS |}).
  reflexivity.
Defined.

(** ** The view *)

(** X24: what the user sees after any sequence of edits and
    submissions: the input and the button are enabled and the button
    reads [Check Wallet]; an error panel is never shown together with a
    result panel or a token panel; and the token panel, which the JSX
    does not guard by the error, is only ever shown under a result
    panel. *)
Theorem reachable_view (loc : Locale) (actions : list Action) :
  let v := render loc (runActions initialState actions) in
  inputDisabled v = false
  /\ buttonDisabled v = false
  /\ buttonLabel v = lit "Check Wallet"
  /\ (errorPanel v = None \/ (resultPanel v = None /\ tokenPanel v = None))
  /\ (tokenPanel v = None \/ resultPanel v <> None).
Proof.
  cbv zeta. destruct (reachable_idle actions) as (Hload & _ & Hres).
  unfold render. cbn. rewrite Hload.
  repeat (split; [reflexivity|]).
  destruct (walletInfo (runActions initialState actions)) as [w|].
  - destruct (Hres w eq_refl) as [-> _]. cbn.
    split; [left; reflexivity|]. right. discriminate.
  - split; [right; split; reflexivity | left; reflexivity].
Qed.

(** X25: a token whose fetch failed is listed as [Unknown Token] with
    the amount [Error]. *)
Theorem failed_token_row
    (loc : Locale) (env : Env) (wallet token : jsstring)
    (fetched : TokenBalance.t) :
  outcome (getTokenBalance env wallet token) = Ok fetched ->
  TokenBalance.error fetched = Some true ->
  tokenRow loc fetched
  = {| rowLabel := lit "Unknown Token"; rowAmount := lit "Error" |}.
Proof.
  unfold getTokenBalance.
  destruct (getAddress env token) as [c|e]; cbn;
    [|intros H _; injection H as <-; reflexivity].
  destruct (newContract env c); cbn;
    [|intros H _; injection H as <-; reflexivity].
  destruct (balanceOf env c wallet) as [raw|], (decimals env c) as [d|],
    (symbol env c); cbn;
    try (intros H _; injection H as <-; reflexivity).
  destruct (formatUnits env raw d); cbn;
    intros H; injection H as <-; [discriminate | reflexivity].
Qed.

Lemma failed_token_row_witness :
  tokenRow plainLocale (tokenFailure usdt)
  = {| rowLabel := lit "Unknown Token"; rowAmount := lit "Error" |}.
Proof.
  apply (@failed_token_row plainLocale offlineEnv sampleWallet usdt
           (tokenFailure usdt));
    reflexivity.
Defined.



(** ** The earlier revisions *)

Section EarlierFacts.

Import Earlier.

Lemma requests_app (t t' : list Step) :
  requests (t ++ t') = requests t ++ requests t'.
Proof.
  induction t as [|[ev|u] t IH]; [reflexivity| |exact IH].
  destruct ev; simpl; rewrite ?IH; reflexivity.
Qed.

Lemma updates_app (t t' : list Step) :
  updates (t ++ t') = updates t ++ updates t'.
Proof.
  induction t as [|[ev|u] t IH]; simpl; rewrite ?IH; reflexivity.
Qed.

Lemma requests_run (t : list Event) : requests (map inl t) = rpcCalls t.
Proof.
  induction t as [|ev t IH]; [reflexivity|].
  destruct ev; simpl; rewrite ?IH; reflexivity.
Qed.

Lemma updates_run (t : list Event) : updates (map inl t) = [].
Proof. induction t as [|ev t IH]; [reflexivity | exact IH]. Qed.

End EarlierFacts.

(** Runs a handler of the earlier revisions whose every call has been
    decided. *)
Ltac run_handler :=
  cbn [Earlier.andThen Earlier.catching Earlier.finallyDo Earlier.update
       Earlier.run Earlier.steps Earlier.ending emit rpc lift trace outcome
       fst snd map app].

(** X27: in the revision with token balances, an input that is blank or
    fails the validation is turned down before anything else happens:
    one [setError], no request, and the loading flag is not touched. *)
Theorem tokens_revision_rejects_early
    (env : Env) (st : Earlier.WithTokens.State) :
  forallb isWhiteSpace (Earlier.WithTokens.walletAddress st) = true
  \/ isAddress env (trim (Earlier.WithTokens.walletAddress st)) = false ->
  Earlier.requests (Earlier.steps (Earlier.WithTokens.handleSubmit env st))
  = []
  /\ Earlier.updates (Earlier.steps (Earlier.WithTokens.handleSubmit env st))
     = [Earlier.SetError
          (if forallb isWhiteSpace (Earlier.WithTokens.walletAddress st)
           then lit "Please enter a wallet address"
           else lit "Please enter a valid ETH wallet address")].
Proof.
  intros H. unfold Earlier.WithTokens.handleSubmit.
  destruct (forallb isWhiteSpace (Earlier.WithTokens.walletAddress st))
    eqn:Hblank.
  - apply trim_nil_iff in Hblank. rewrite Hblank. split; reflexivity.
  - rewrite (not_blank_trim _ Hblank).
    destruct H as [H|H]; [discriminate|]. rewrite H.
    split; reflexivity.
Qed.

Lemma tokens_revision_rejects_early_witness :
  Earlier.requests
    (Earlier.steps
       (Earlier.WithTokens.handleSubmit healthyEnv
          {| Earlier.WithTokens.walletAddress := lit "vitalik.eth";
             Earlier.WithTokens.isLoading := false;
             Earlier.WithTokens.error := [];
             Earlier.WithTokens.balance := None;
             Earlier.WithTokens.tokenBalances := [] |}))
  = []
  /\ Earlier.updates
       (Earlier.steps
          (Earlier.WithTokens.handleSubmit healthyEnv
             {| Earlier.WithTokens.walletAddress := lit "vitalik.eth";
                Earlier.WithTokens.isLoading := false;
                Earlier.WithTokens.error := [];
                Earlier.WithTokens.balance := None;
                Earlier.WithTokens.tokenBalances := [] |}))
     = [Earlier.SetError (lit "Please enter a valid ETH wallet address")].
Proof.
  apply (@tokens_revision_rejects_early healthyEnv
           {| Earlier.WithTokens.walletAddress := lit "vitalik.eth";
              Earlier.WithTokens.isLoading := false;
              Earlier.WithTokens.error := [];
              Earlier.WithTokens.balance := None;
              Earlier.WithTokens.tokenBalances := [] |}).
  right. reflexivity.
Defined.

(** X28: in the revision with token balances, the text is validated
    after trimming but sent as it was typed: every request of a
    submission carries the untrimmed text as the wallet, be it the
    balance request or a read of a token contract. *)
Theorem tokens_revision_sends_raw_text
    (env : Env) (st : Earlier.WithTokens.State) (c : RpcCall) :
  In c (Earlier.requests
          (Earlier.steps (Earlier.WithTokens.handleSubmit env st))) ->
  c = GetBalance (Earlier.WithTokens.walletAddress st)
  \/ exists token canonical,
      In token TOKENS
      /\ getAddress env (tokenAddress token) = Ok canonical
      /\ (c = BalanceOf canonical (Earlier.WithTokens.walletAddress st)
          \/ c = Decimals canonical \/ c = Symbol canonical).
Proof.
  unfold Earlier.WithTokens.handleSubmit.
  destruct (falsy (trim (Earlier.WithTokens.walletAddress st)));
    [intros []|].
  destruct (isAddress env (trim (Earlier.WithTokens.walletAddress st)));
    [|intros []].
  cbn [negb].
  fold (tokenFetches env (Earlier.WithTokens.walletAddress st)).
  pose proof (@tokenFetches_request_shape env
                (Earlier.WithTokens.walletAddress st) c) as Hshape.
  destruct (tokenFetches env (Earlier.WithTokens.walletAddress st))
    as [t2 r2].
  unfold trace in Hshape. cbn [fst] in Hshape.
  destruct (getBalance env (Earlier.WithTokens.walletAddress st))
    as [bal|e]; run_handler;
    [destruct (formatEther env bal) as [f|e]; run_handler;
     [destruct r2 as [l|e]; run_handler|]|];
    repeat (rewrite ?requests_app, ?requests_run; cbn [Earlier.requests app]);
    rewrite ?app_nil_r, ?in_app_iff; cbn [In];
    intros Hin; decompose [or] Hin; subst; auto; try contradiction.
Qed.

Lemma tokens_revision_sends_raw_text_witness :
  GetBalance (lit " " ++ sampleWallet)
  = GetBalance (Earlier.WithTokens.walletAddress Earlier.WithTokens.shown)
  \/ exists token canonical,
      In token TOKENS
      /\ getAddress healthyEnv (tokenAddress token) = Ok canonical
      /\ (GetBalance (lit " " ++ sampleWallet)
          = BalanceOf canonical
              (Earlier.WithTokens.walletAddress Earlier.WithTokens.shown)
          \/ GetBalance (lit " " ++ sampleWallet) = Decimals canonical
          \/ GetBalance (lit " " ++ sampleWallet) = Symbol canonical).
Proof.
  apply (@tokens_revision_sends_raw_text healthyEnv
           Earlier.WithTokens.shown (GetBalance (lit " " ++ sampleWallet))).
  vm_compute. tauto.
Defined.

(** X29: in the revision with token balances, a submission whose balance
    request rejects sets the failure message and ends the loading state
    but clears nothing: the balance and the token list of the previous
    lookup stay in the state. *)
Theorem tokens_revision_failure_keeps_old_data
    (env : Env) (st : Earlier.WithTokens.State) :
  forallb isWhiteSpace (Earlier.WithTokens.walletAddress st) = false ->
  isAddress env (trim (Earlier.WithTokens.walletAddress st)) = true ->
  rejects (getBalance env (Earlier.WithTokens.walletAddress st)) ->
  Earlier.WithTokens.stateAfter st
    (Earlier.steps (Earlier.WithTokens.handleSubmit env st))
  = {| Earlier.WithTokens.walletAddress := Earlier.WithTokens.walletAddress st;
       Earlier.WithTokens.isLoading := false;
       Earlier.WithTokens.error :=
         lit "Failed to fetch balance. Please try again later";
       Earlier.WithTokens.balance := Earlier.WithTokens.balance st;
       Earlier.WithTokens.tokenBalances :=
         Earlier.WithTokens.tokenBalances st |}.
Proof.
  intros Hblank Hvalid Hrej.
  unfold Earlier.WithTokens.handleSubmit.
  rewrite (not_blank_trim _ Hblank), Hvalid. cbn [negb].
  destruct (getBalance env (Earlier.WithTokens.walletAddress st))
    as [bal|e]; [destruct Hrej|].
  destruct st; reflexivity.
Qed.

Lemma tokens_revision_failure_keeps_old_data_witness :
  Earlier.WithTokens.stateAfter Earlier.WithTokens.shown
    (Earlier.steps
       (Earlier.WithTokens.handleSubmit offlineEnv Earlier.WithTokens.shown))
  = {| Earlier.WithTokens.walletAddress := lit " " ++ sampleWallet;
       Earlier.WithTokens.isLoading := false;
       Earlier.WithTokens.error :=
         lit "Failed to fetch balance. Please try again later";
       Earlier.WithTokens.balance := Some (lit "1.5");
       Earlier.WithTokens.tokenBalances := [tokenFailure usdt] |}.
Proof.
  apply (@tokens_revision_failure_keeps_old_data offlineEnv
           Earlier.WithTokens.shown).
  - reflexivity.
  - reflexivity.
  - vm_compute. exact I.
Defined.

(** X30: the first revision with a handler sends a request exactly for
    a text that is not blank, starts with [0x] and has forty-two
    characters, counted on the text as typed; it then asks for the
    balance of that very text, once.  No other check of the address is
    made. *)
Theorem basic_revision_requests (env : Env) (st : Earlier.Basic.State) :
  Earlier.requests (Earlier.steps (Earlier.Basic.handleSubmit env st))
  = if negb (forallb isWhiteSpace (Earlier.Basic.walletAddress st))
       && Earlier.Basic.wellFormed (Earlier.Basic.walletAddress st)
    then [GetBalance (Earlier.Basic.walletAddress st)]
    else [].
Proof.
  unfold Earlier.Basic.handleSubmit, Earlier.Basic.wellFormed.
  destruct (forallb isWhiteSpace (Earlier.Basic.walletAddress st)) eqn:Hblank.
  - apply trim_nil_iff in Hblank. rewrite Hblank. reflexivity.
  - rewrite (not_blank_trim _ Hblank). cbn [negb andb].
    destruct (startsWith (Earlier.Basic.walletAddress st) (lit "0x"));
      [|reflexivity].
    destruct (List.length (Earlier.Basic.walletAddress st) =? 42)%nat;
      [|reflexivity].
    cbn [negb orb andb].
    destruct (getBalance env (Earlier.Basic.walletAddress st)) as [bal|e];
      run_handler; [destruct (formatEther env bal); run_handler|];
      reflexivity.
Qed.
